(** * search-collector: the transformation pipeline and the Policy adapter

    A shallow embedding of [pkg/transforms]: the [Node] value type, the
    [PolicyResource] adapter of [policy.go] and the worker pool of the
    [Transformer] ([Start], [transformRoutine], [handleRoutineExit]).

    Go maps are finite maps ([gmap]), channels are FIFO lists stored under
    a channel identifier, goroutines are entries of a routine table that
    an interleaving step function advances one at a time, and a panic is
    the [Panicked] branch of [Outcome]. *)

From Stdlib Require Import ZArith Lia Ascii String.
From stdpp Require Import base option list gmap strings fin_maps.

(** ** Outcomes: a normal return or a panic *)

(** What [recover()] returns after a panic.  Every panic of the runtime and
    every [panic(v)] with a non-nil [v] carries a value. *)
Definition PanicValue := string.

Inductive Outcome (A : Type) : Type :=
| Done (a : A)
| Panicked (v : PanicValue).
Arguments Done {A} a.
Arguments Panicked {A} v.

Definition isDone {A} (o : Outcome A) : bool :=
  match o with Done _ => true | Panicked _ => false end.

(** ** Property values and graph nodes *)

(** The [interface{}] values that the transforms store in a property map. *)
Inductive Value : Type :=
| VString (s : string)
| VBool (b : bool)
| VInt64 (z : Z)
| VLabels (m : gmap string string).

(** [type Node struct { UID string; Properties map[string]interface{} }] *)
Record Node : Type := mkNode {
  UID : string;
  Properties : gmap string Value
}.

(** [node.Properties[k] = v] *)
Definition setProperty (node : Node) (k : string) (v : Value) : Node :=
  {| UID := UID node; Properties := <[k := v]> (Properties node) |}.

(** ** Kubernetes metadata, as far as the transforms read it *)

Module metav1.

Record TypeMeta : Type := mkTypeMeta {
  Kind : string;
  APIVersion : string
}.

(** The data behind the accessors of the [metav1.Object] interface.
    A nil [Labels] map reads like the empty one. *)
Record ObjectMeta : Type := mkObjectMeta {
  Name : string;
  Namespace : string;
  UID : string;
  Labels : gmap string string
}.

End metav1.

(** The concrete Go type behind a [machineryV1.Object] interface value:
    the thirteen types the type switch of [transformRoutine] names, and
    every other implementation of the interface. *)
Inductive GoType : Type :=
| core_ConfigMap
| batchBeta_CronJob
| apps_DaemonSet
| apps_Deployment
| batch_Job
| core_Namespace
| core_Node
| core_PersistentVolume
| core_Pod
| apps_ReplicaSet
| core_Secret
| core_Service
| apps_StatefulSet
| other_type (name : string).

#[global] Instance GoType_eq_dec : EqDecision GoType.
Proof. solve_decision. Defined.

(** A value travelling on the [Input] channel: an interface value with its
    dynamic type.  The kind specific fields are read only by the kind
    specific extraction functions and are not represented. *)
Record Object : Type := mkObject {
  concreteType : GoType;
  typeMeta : metav1.TypeMeta;
  objectMeta : metav1.ObjectMeta
}.

(** A value travelling on the [DynamicInput] channel. *)
Record Unstructured : Type := mkUnstructured {
  uTypeMeta : metav1.TypeMeta;
  uObjectMeta : metav1.ObjectMeta
}.

(** ** The extraction functions defined in other files of the package

    [transformRoutine] and [BuildNode] call them; their bodies are not part
    of the files embedded here, so the development is parametric in them. *)
Class Extractors : Type := {
  transformCommon : Object -> Outcome Node;
  apiGroupVersion : metav1.TypeMeta -> Node -> Node;
  transformConfigMap : Object -> Outcome Node;
  transformCronJob : Object -> Outcome Node;
  transformDaemonSet : Object -> Outcome Node;
  transformDeployment : Object -> Outcome Node;
  transformJob : Object -> Outcome Node;
  transformNamespace : Object -> Outcome Node;
  transformNode : Object -> Outcome Node;
  transformPersistentVolume : Object -> Outcome Node;
  transformPod : Object -> Outcome Node;
  transformReplicaSet : Object -> Outcome Node;
  transformSecret : Object -> Outcome Node;
  transformService : Object -> Outcome Node;
  transformStatefulSet : Object -> Outcome Node;
  transformUnstructured : Unstructured -> Outcome Node
}.

(** ** policy.go *)

Module mcm.

(** Only the number of rules of a role template is read. *)
Record PolicyRule : Type := mkPolicyRule { Verbs : list string }.

Record RoleTemplate : Type := mkRoleTemplate { Rules : list PolicyRule }.

(** [RoleTemplates] is a slice of pointers: [None] is a nil entry. *)
Record PolicySpec : Type := mkPolicySpec {
  RemediationAction : string;
  RoleTemplates : list (option RoleTemplate)
}.

Record PolicyStatus : Type := mkPolicyStatus {
  ComplianceState : string;
  Valid : bool
}.

Record Policy : Type := mkPolicy {
  TypeMeta : metav1.TypeMeta;
  ObjectMeta : metav1.ObjectMeta;
  Spec : PolicySpec;
  Status : PolicyStatus
}.

End mcm.

(** [*mcm.Policy]: an address in the store of policies, or nil. *)
Definition addr := positive.
Definition PolicyStore := gmap addr mcm.Policy.

(** [type PolicyResource struct { *mcm.Policy }] *)
Record PolicyResource : Type := mkPolicyResource { Policy : option addr }.

(** Code that reads (and could write) the store of policies and may panic. *)
Definition M (A : Type) : Type := PolicyStore -> Outcome A * PolicyStore.

Definition ret {A} (a : A) : M A := fun h => (Done a, h).

Definition bind {A B} (c : M A) (k : A -> M B) : M B :=
  fun h => match c h with
           | (Done a, h') => k a h'
           | (Panicked v, h') => (Panicked v, h')
           end.

Definition lift {A} (o : Outcome A) : M A := fun h => (o, h).

Notation "'run' x <~ c 'in' k" := (bind c (fun x => k))
  (at level 10, x name, c at level 100, k at level 200).

Definition nilDereference : PanicValue :=
  "runtime error: invalid memory address or nil pointer dereference".

(** Reading through the embedded pointer.  Go has no dangling pointers, so
    an address outside the store stands for nil as well. *)
Definition deref (p : PolicyResource) : M mcm.Policy :=
  fun h => match Policy p with
           | Some a => match h !! a with
                       | Some pol => (Done pol, h)
                       | None => (Panicked nilDereference, h)
                       end
           | None => (Panicked nilDereference, h)
           end.

(** The policy seen through the [machineryV1.Object] interface. *)
Definition asObject (pol : mcm.Policy) : Object :=
  {| concreteType := other_type "transforms.PolicyResource";
     typeMeta := mcm.TypeMeta pol;
     objectMeta := mcm.ObjectMeta pol |}.

(** Go's [int64] arithmetic wraps around. *)
Definition int64 (z : Z) : Z := ((z + 2 ^ 63) mod 2 ^ 64 - 2 ^ 63)%Z.

(** The loop over [p.Spec.RoleTemplates], [rules] being the accumulator. *)
Fixpoint countRules (roleTemplates : list (option mcm.RoleTemplate)) (rules : Z) : Z :=
  match roleTemplates with
  | [] => rules
  | role :: rest =>
      match role with
      | Some r =>
          countRules rest
            (int64 (rules + int64 (Z.of_nat (length (mcm.Rules r)))))
      | None => countRules rest rules
      end
  end.

(** [if v, ok := labels[key]; ok { node.Properties[key] = v }] *)
Definition copyLabel (labels : gmap string string) (key : string) (node : Node) : Node :=
  match labels !! key with
  | Some v => setProperty node key (VString v)
  | None => node
  end.

Section Policy.
Context `{E : Extractors}.

(** [BuildNode] for a common step that only reads the policy: it is given
    the policy the pointer leads to.  The pointer is followed first, so a
    nil pointer panics here before the common step runs;
    [ByReference.BuildNode] below keeps the order of the source and hands
    the pointer to the common step. *)
Definition BuildNode (p : PolicyResource) : M Node :=
  run pol <~ deref p in
  run node <~ lift (transformCommon (asObject pol)) in
  let node := apiGroupVersion (mcm.TypeMeta pol) node in
  let node := setProperty node "remediationAction"
                (VString (mcm.RemediationAction (mcm.Spec pol))) in
  let node := setProperty node "compliant"
                (VString (mcm.ComplianceState (mcm.Status pol))) in
  let node := setProperty node "valid"
                (VBool (mcm.Valid (mcm.Status pol))) in
  let rules := countRules (mcm.RoleTemplates (mcm.Spec pol)) (int64 0) in
  let node := setProperty node "numRules" (VInt64 rules) in
  let node := copyLabel (metav1.Labels (mcm.ObjectMeta pol)) "parent-namespace" node in
  let node := copyLabel (metav1.Labels (mcm.ObjectMeta pol)) "parent-policy" node in
  ret node.

End Policy.

(** Modelled from the spec: the declaration of [Edge] is in another file of
    the package; the spec gives it a source UID, a destination UID and a
    relationship label. *)
Record Edge : Type := mkEdge {
  SourceUID : string;
  DestUID : string;
  EdgeType : string
}.

(** Modelled from the spec: the declaration of [NodeStore] is in another
    file of the package; the spec describes a lookup of previously built
    nodes by UID. *)
Record NodeStore : Type := mkNodeStore { ByUID : gmap string Node }.

(** [BuildEdges] hands back the store it was given next to its result, so
    that a write to the store would show. *)
Definition BuildEdges (p : PolicyResource) (ns : NodeStore) : M (list Edge * NodeStore) :=
  ret ([], ns).

(** ** The transformer: channels, goroutines and the world they share *)

Definition chan := positive.

(** [type Transformer struct { Input; DynamicInput; Output }]: three channel
    handles.  A handle without an entry in the world behaves like a nil
    channel: every operation on it blocks. *)
Record Transformer : Type := mkTransformer {
  Input : chan;
  DynamicInput : chan;
  Output : chan
}.

Inductive LogLine : Type :=
| Info (msg : string)
| Error (msg : string).

(** What a worker took out of one of its two intake channels. *)
Inductive Item : Type :=
| Typed (resource : Object)
| Dynamic (resource : Unstructured).

(** The program points of [transformRoutine] between which other
    goroutines may run. *)
Inductive Pc : Type :=
| AtEntry                          (* spawned, nothing executed yet *)
| AtSelect                         (* waiting in the [select] *)
| Holding (resource : Item)        (* received, transform not yet called *)
| AtSend (transformed : Node)      (* at [output <- transformed] *)
| Panicking (r : PanicValue)       (* unwinding into [handleRoutineExit] *)
| Exited.

(** A goroutine running [transformRoutine(input, dynamicInput, output)]. *)
Record Routine : Type := mkRoutine {
  input : chan;
  dynamicInput : chan;
  output : chan;
  pc : Pc
}.

(** Channel contents are the values sent and not yet received, oldest
    first.  The receiver of the output channel is outside the package, so
    an output channel accumulates what the workers sent.  No function of
    the package closes a channel. *)
Record World : Type := mkWorld {
  objChans : gmap chan (list Object);
  dynChans : gmap chan (list Unstructured);
  nodeChans : gmap chan (list Node);
  routines : list Routine;
  glog : list LogLine
}.

Definition setObjChans (m : gmap chan (list Object)) (w : World) : World :=
  {| objChans := m; dynChans := dynChans w; nodeChans := nodeChans w;
     routines := routines w; glog := glog w |}.

Definition setDynChans (m : gmap chan (list Unstructured)) (w : World) : World :=
  {| objChans := objChans w; dynChans := m; nodeChans := nodeChans w;
     routines := routines w; glog := glog w |}.

Definition setNodeChans (m : gmap chan (list Node)) (w : World) : World :=
  {| objChans := objChans w; dynChans := dynChans w; nodeChans := m;
     routines := routines w; glog := glog w |}.

Definition setRoutines (l : list Routine) (w : World) : World :=
  {| objChans := objChans w; dynChans := dynChans w; nodeChans := nodeChans w;
     routines := l; glog := glog w |}.

Definition writeLog (line : LogLine) (w : World) : World :=
  {| objChans := objChans w; dynChans := dynChans w; nodeChans := nodeChans w;
     routines := routines w; glog := glog w ++ [line] |}.

Definition setPc (i : nat) (g : Routine) (p : Pc) (w : World) : World :=
  setRoutines (<[i := {| input := input g; dynamicInput := dynamicInput g;
                         output := output g; pc := p |}]> (routines w)) w.

(** [go transformRoutine(input, dynamicInput, output)] *)
Definition go (input dynamicInput output : chan) (w : World) : World :=
  setRoutines (routines w ++ [mkRoutine input dynamicInput output AtEntry]) w.

(** The loop [for i := 0; i < numRoutines; i++ { go ... }]. *)
Fixpoint startLoop (fuel : nat) (t : Transformer) (i numRoutines : Z) (w : World) : World :=
  match fuel with
  | O => w
  | S fuel' =>
      if (i <? numRoutines)%Z
      then startLoop fuel' t (i + 1)%Z numRoutines
             (go (Input t) (DynamicInput t) (Output t) w)
      else w
  end.

(** [func (t Transformer) Start(numRoutines int) error]; [None] is the nil
    error. *)
Definition Start (t : Transformer) (numRoutines : Z) (w : World) : option string * World :=
  let w := writeLog (Info "Transformer started") w in
  if (numRoutines <? 1)%Z
  then (Some "numRoutines must be 1 or greater", w)
  else (None, startLoop (Z.to_nat numRoutines) t 0%Z numRoutines w).

Definition newline : string := String (Ascii.ascii_of_nat 10) EmptyString.

(** [handleRoutineExit]: [r] is what [recover()] returned, [None] for nil. *)
Definition handleRoutineExit (r : option PanicValue) (input dynamicInput output : chan)
    (w : World) : World :=
  match r with
  | Some v =>
      go input dynamicInput output
        (writeLog (Error ("Error in transformer routine: " +:+ v +:+ newline)) w)
  | None => w
  end.

(** The two communications of the [select]. *)
Inductive Branch : Type := FromInput | FromDynamicInput.

Section Pipeline.
Context `{E : Extractors}.

(** The type switch over a resource read from [input]. *)
Definition transformTyped (resource : Object) : Outcome Node :=
  match concreteType resource with
  | core_ConfigMap => transformConfigMap resource
  | batchBeta_CronJob => transformCronJob resource
  | apps_DaemonSet => transformDaemonSet resource
  | apps_Deployment => transformDeployment resource
  | batch_Job => transformJob resource
  | core_Namespace => transformNamespace resource
  | core_Node => transformNode resource
  | core_PersistentVolume => transformPersistentVolume resource
  | core_Pod => transformPod resource
  | apps_ReplicaSet => transformReplicaSet resource
  | core_Secret => transformSecret resource
  | core_Service => transformService resource
  | apps_StatefulSet => transformStatefulSet resource
  | other_type _ => transformCommon resource
  end.

Definition transform (resource : Item) : Outcome Node :=
  match resource with
  | Typed r => transformTyped r
  | Dynamic u => transformUnstructured u
  end.

(** [transformRoutine], one step at a time: the step of goroutine [i] from
    the program point it is at.  [b] is the communication the [select]
    picks; a communication that cannot proceed gives no step.  The deferred
    [handleRoutineExit] runs when the goroutine unwinds from a panic.

    A send on a channel that is not nil is a step that can be taken: the
    receiver, outside the package, is taken to keep up.  A worker that waits
    at a full or unbuffered [output] is a goroutine at [AtSend] whose step
    has not been taken yet, so every run of the program is a run here;
    which goroutines are stuck for want of a receiver is not represented. *)
Definition transformRoutine (i : nat) (b : Branch) (w : World) : option World :=
  match routines w !! i with
  | None => None
  | Some g =>
      match pc g with
      | AtEntry =>
          Some (setPc i g AtSelect (writeLog (Info "Starting transformer routine") w))
      | AtSelect =>
          match b with
          | FromInput =>
              match objChans w !! input g with
              | Some (resource :: rest) =>
                  Some (setPc i g (Holding (Typed resource))
                          (setObjChans (<[input g := rest]> (objChans w)) w))
              | _ => None
              end
          | FromDynamicInput =>
              match dynChans w !! dynamicInput g with
              | Some (resource :: rest) =>
                  Some (setPc i g (Holding (Dynamic resource))
                          (setDynChans (<[dynamicInput g := rest]> (dynChans w)) w))
              | _ => None
              end
          end
      | Holding resource =>
          match transform resource with
          | Done transformed => Some (setPc i g (AtSend transformed) w)
          | Panicked r => Some (setPc i g (Panicking r) w)
          end
      | AtSend transformed =>
          match nodeChans w !! output g with
          | Some sent =>
              Some (setPc i g AtSelect
                      (setNodeChans (<[output g := sent ++ [transformed]]> (nodeChans w)) w))
          | None => None
          end
      | Panicking r =>
          Some (handleRoutineExit (Some r) (input g) (dynamicInput g) (output g)
                  (setPc i g Exited w))
      | Exited => None
      end
  end.

Definition step (w w' : World) : Prop := exists i b, transformRoutine i b w = Some w'.

(** Runs of a given length. *)
Inductive steps : nat -> World -> World -> Prop :=
| steps_O w : steps 0 w w
| steps_S k w w' w'' : step w w' -> steps k w' w'' -> steps (S k) w w''.

Definition reachable (w w' : World) : Prop := exists k, steps k w w'.

(** A scheduler that always runs the first goroutine that can move,
    trying its [input] before its [dynamicInput]. *)
Fixpoint firstEnabled (candidates : list nat) (w : World) : option World :=
  match candidates with
  | [] => None
  | i :: rest =>
      match transformRoutine i FromInput w with
      | Some w' => Some w'
      | None =>
          match transformRoutine i FromDynamicInput w with
          | Some w' => Some w'
          | None => firstEnabled rest w
          end
      end
  end.

Definition pick (w : World) : option World :=
  firstEnabled (seq 0 (length (routines w))) w.

Fixpoint runFor (fuel : nat) (w : World) : World :=
  match fuel with
  | O => w
  | S fuel' =>
      match pick w with
      | Some w' => runFor fuel' w'
      | None => w
      end
  end.

(** The same steps as a relation, one rule per program point: goroutine
    [i], whose entry in the table is [g], moves the world from [w]. *)
Inductive routineStep (i : nat) (g : Routine) (w : World) : Branch -> World -> Prop :=
| routineStep_enter b :
    pc g = AtEntry ->
    routineStep i g w b (setPc i g AtSelect (writeLog (Info "Starting transformer routine") w))
| routineStep_receive resource rest :
    pc g = AtSelect ->
    objChans w !! input g = Some (resource :: rest) ->
    routineStep i g w FromInput
      (setPc i g (Holding (Typed resource))
         (setObjChans (<[input g := rest]> (objChans w)) w))
| routineStep_receive_dynamic resource rest :
    pc g = AtSelect ->
    dynChans w !! dynamicInput g = Some (resource :: rest) ->
    routineStep i g w FromDynamicInput
      (setPc i g (Holding (Dynamic resource))
         (setDynChans (<[dynamicInput g := rest]> (dynChans w)) w))
| routineStep_transform b resource transformed :
    pc g = Holding resource ->
    transform resource = Done transformed ->
    routineStep i g w b (setPc i g (AtSend transformed) w)
| routineStep_panic b resource r :
    pc g = Holding resource ->
    transform resource = Panicked r ->
    routineStep i g w b (setPc i g (Panicking r) w)
| routineStep_send b transformed sent :
    pc g = AtSend transformed ->
    nodeChans w !! output g = Some sent ->
    routineStep i g w b
      (setPc i g AtSelect
         (setNodeChans (<[output g := sent ++ [transformed]]> (nodeChans w)) w))
| routineStep_exit b r :
    pc g = Panicking r ->
    routineStep i g w b
      (handleRoutineExit (Some r) (input g) (dynamicInput g) (output g)
         (setPc i g Exited w)).

(** Three steps in a row of goroutine [i]: from the [select], one turn of
    the loop of [transformRoutine] when nothing panics. *)
Definition iteration (i : nat) (b : Branch) (w : World) : option World :=
  w1 ← transformRoutine i b w; w2 ← transformRoutine i b w1; transformRoutine i b w2.

End Pipeline.

(** ** Quantities used to state the properties of the pool *)

Definition chanOf {A} (m : gmap chan (list A)) (c : chan) : list A :=
  default [] (m !! c).

(** The goroutine was started on the three channels of [t]. *)
Definition boundTo (t : Transformer) (g : Routine) : Prop :=
  input g = Input t /\ dynamicInput g = DynamicInput t /\ output g = Output t.

Definition isLive (p : Pc) : bool :=
  match p with Exited => false | _ => true end.

(** The number of goroutines that have not exited. *)
Definition liveCount (w : World) : nat :=
  sum_list_with (fun g => if isLive (pc g) then 1 else 0) (routines w).

Definition itemUID (resource : Item) : string :=
  match resource with
  | Typed r => metav1.UID (objectMeta r)
  | Dynamic u => metav1.UID (uObjectMeta u)
  end.

Definition nodeOf (o : Outcome Node) : option Node :=
  match o with Done n => Some n | Panicked _ => None end.

(** Steps a goroutine at this program point still owes before it waits in
    the [select] again or is gone, a replacement included. *)
Definition weight (p : Pc) : nat :=
  match p with
  | AtEntry => 1
  | AtSelect => 0
  | Holding _ => 3
  | AtSend _ => 1
  | Panicking _ => 2
  | Exited => 0
  end.

Definition backlog (t : Transformer) (w : World) : nat :=
  length (chanOf (objChans w) (Input t)) + length (chanOf (dynChans w) (DynamicInput t)).

(** A bound on the number of steps the pool of [t] can still take. *)
Definition measure (t : Transformer) (w : World) : nat :=
  4 * backlog t w + sum_list_with (weight ∘ pc) (routines w).

(** All goroutines of the world serve [t], and its output channel exists. *)
Definition poolOf (t : Transformer) (w : World) : Prop :=
  Forall (boundTo t) (routines w) /\ is_Some (nodeChans w !! Output t).

Section Ledger.
Context `{E : Extractors}.

(** The node a goroutine at this program point is going to send. *)
Definition inFlight (p : Pc) : list Node :=
  match p with
  | Holding resource =>
      match transform resource with Done n => [n] | Panicked _ => [] end
  | AtSend n => [n]
  | _ => []
  end.

(** The nodes of the resources whose transformation returns normally. *)
Definition nodesOf (resources : list Item) : list Node :=
  omap (fun resource => nodeOf (transform resource)) resources.

(** The nodes of the resources still waiting in the intake channels. *)
Definition queued (t : Transformer) (w : World) : list Node :=
  omap (fun r => nodeOf (transform (Typed r))) (chanOf (objChans w) (Input t))
  ++ omap (fun u => nodeOf (transform (Dynamic u))) (chanOf (dynChans w) (DynamicInput t)).

(** Every node the pool has sent or is going to send. *)
Definition ledger (t : Transformer) (w : World) : list Node :=
  chanOf (nodeChans w) (Output t)
  ++ (routines w ≫= (fun g => inFlight (pc g)))
  ++ queued t w.

End Ledger.

(** The kinds the spec lists as registered, each with its extraction
    function: the spec's side of the dispatch, to compare with
    [transformTyped]. *)
Definition registry `{E : Extractors} : list (GoType * (Object -> Outcome Node)) :=
  [ (core_ConfigMap, transformConfigMap);
    (batchBeta_CronJob, transformCronJob);
    (apps_DaemonSet, transformDaemonSet);
    (apps_Deployment, transformDeployment);
    (batch_Job, transformJob);
    (core_Namespace, transformNamespace);
    (core_Node, transformNode);
    (core_PersistentVolume, transformPersistentVolume);
    (core_Pod, transformPod);
    (apps_ReplicaSet, transformReplicaSet);
    (core_Secret, transformSecret);
    (core_Service, transformService);
    (apps_StatefulSet, transformStatefulSet) ].

(** The three identity fields the spec promises on every node. *)
Definition hasBaseline (node : Node) : Prop :=
  is_Some (Properties node !! "kind")
  /\ is_Some (Properties node !! "apiGroup")
  /\ is_Some (Properties node !! "version").

(** ** The extraction functions as the spec describes them *)

Module Spec.

(** ["group/version"] splits at the first slash. *)
Fixpoint splitSlash (s : string) : option (string * string) :=
  match s with
  | EmptyString => None
  | String c rest =>
      if Ascii.eqb c "/"%char then Some (EmptyString, rest)
      else match splitSlash rest with
           | Some (g, v) => Some (String c g, v)
           | None => None
           end
  end.

Definition groupOf (apiVersion : string) : string :=
  match splitSlash apiVersion with Some (g, _) => g | None => "" end.

Definition versionOf (apiVersion : string) : string :=
  match splitSlash apiVersion with Some (_, v) => v | None => apiVersion end.

(** Modelled from the spec: [apiGroupVersion] is in another file of the
    package; it contributes the identity fields kind, apiGroup and
    version. *)
Definition apiGroupVersion (tm : metav1.TypeMeta) (node : Node) : Node :=
  setProperty
    (setProperty
       (setProperty node "kind" (VString (metav1.Kind tm)))
       "apiGroup" (VString (groupOf (metav1.APIVersion tm))))
    "version" (VString (versionOf (metav1.APIVersion tm))).

(** Modelled from the spec: the common extraction is in another file of
    the package; it pulls the universally present metadata (name,
    namespace, kind, labels) and the identity fields, and keys the node by
    the UID of the resource. *)
Definition common (tm : metav1.TypeMeta) (om : metav1.ObjectMeta) : Node :=
  apiGroupVersion tm
    {| UID := metav1.UID om;
       Properties :=
         <["labels" := VLabels (metav1.Labels om)]>
           (<["namespace" := VString (metav1.Namespace om)]>
              (<["name" := VString (metav1.Name om)]> ∅)) |}.

Definition transformCommon (resource : Object) : Outcome Node :=
  Done (common (typeMeta resource) (objectMeta resource)).

(** Modelled from the spec: the thirteen dedicated extraction functions
    are in other files of the package; each starts from the common
    baseline and layers the fields of its kind, here [specific], on top. *)
Definition dedicated (specific : Object -> list (string * Value)) (resource : Object)
    : Outcome Node :=
  Done (foldl (fun node kv => setProperty node kv.1 kv.2)
              (common (typeMeta resource) (objectMeta resource))
              (specific resource)).

(** Modelled from the spec: [transformUnstructured] is in another file of
    the package; a dynamic resource gets the common extraction. *)
Definition transformUnstructured (resource : Unstructured) : Outcome Node :=
  Done (common (uTypeMeta resource) (uObjectMeta resource)).

End Spec.

(** The package completed with the extraction functions of the spec. *)
Definition specExtractors (specific : GoType -> Object -> list (string * Value)) : Extractors :=
  {| transformCommon := Spec.transformCommon;
     apiGroupVersion := Spec.apiGroupVersion;
     transformConfigMap := Spec.dedicated (specific core_ConfigMap);
     transformCronJob := Spec.dedicated (specific batchBeta_CronJob);
     transformDaemonSet := Spec.dedicated (specific apps_DaemonSet);
     transformDeployment := Spec.dedicated (specific apps_Deployment);
     transformJob := Spec.dedicated (specific batch_Job);
     transformNamespace := Spec.dedicated (specific core_Namespace);
     transformNode := Spec.dedicated (specific core_Node);
     transformPersistentVolume := Spec.dedicated (specific core_PersistentVolume);
     transformPod := Spec.dedicated (specific core_Pod);
     transformReplicaSet := Spec.dedicated (specific apps_ReplicaSet);
     transformSecret := Spec.dedicated (specific core_Secret);
     transformService := Spec.dedicated (specific core_Service);
     transformStatefulSet := Spec.dedicated (specific apps_StatefulSet);
     transformUnstructured := Spec.transformUnstructured |}.

(** The sum of the rule counts of the non-nil role templates. *)
Definition totalRules (roleTemplates : list (option mcm.RoleTemplate)) : nat :=
  sum_list_with (fun role => match role with
                             | Some r => length (mcm.Rules r)
                             | None => 0
                             end) roleTemplates.

(** ** Sample data *)

Definition noSpecific : GoType -> Object -> list (string * Value) := fun _ _ => [].

Definition someRules (n : nat) : list mcm.PolicyRule :=
  repeat (mcm.mkPolicyRule ["get"; "list"]) n.

Definition policyMeta : metav1.ObjectMeta :=
  {| metav1.Name := "policy-roles";
     metav1.Namespace := "mcm";
     metav1.UID := "7c1f0a5e";
     metav1.Labels := {[ "parent-policy" := "policy-all" ]} |}.

Definition samplePolicy : mcm.Policy :=
  {| mcm.TypeMeta := {| metav1.Kind := "Policy";
                        metav1.APIVersion := "policy.mcm.ibm.com/v1alpha1" |};
     mcm.ObjectMeta := policyMeta;
     mcm.Spec := {| mcm.RemediationAction := "enforce";
                    mcm.RoleTemplates :=
                      [ Some (mcm.mkRoleTemplate (someRules 3));
                        Some (mcm.mkRoleTemplate (someRules 5)) ] |};
     mcm.Status := {| mcm.ComplianceState := "Compliant"; mcm.Valid := true |} |}.

Definition sampleStore : PolicyStore := {[ 1%positive := samplePolicy ]}.

Definition samplePolicyResource : PolicyResource := mkPolicyResource (Some 1%positive).

Definition sampleTransformer : Transformer :=
  {| Input := 1%positive; DynamicInput := 2%positive; Output := 3%positive |}.

Definition sampleObject (ty : GoType) (kind apiVersion name uid : string) : Object :=
  {| concreteType := ty;
     typeMeta := {| metav1.Kind := kind; metav1.APIVersion := apiVersion |};
     objectMeta := {| metav1.Name := name; metav1.Namespace := "default";
                      metav1.UID := uid; metav1.Labels := ∅ |} |}.

Definition samplePod : Object :=
  sampleObject core_Pod "Pod" "v1" "web-0" "uid-pod".

Definition sampleDeployment : Object :=
  sampleObject apps_Deployment "Deployment" "apps/v1" "web" "uid-deployment".

Definition sampleEndpoints : Object :=
  sampleObject (other_type "core.Endpoints") "Endpoints" "v1" "web" "uid-endpoints".

Definition sampleUnstructured : Unstructured :=
  {| uTypeMeta := {| metav1.Kind := "Application";
                     metav1.APIVersion := "app.k8s.io/v1beta1" |};
     uObjectMeta := {| metav1.Name := "shop"; metav1.Namespace := "default";
                       metav1.UID := "uid-application"; metav1.Labels := ∅ |} |}.

(** Three typed and one dynamic resource wait in the channels of
    [sampleTransformer]; nothing runs yet. *)
Definition sampleWorld : World :=
  {| objChans := {[ 1%positive := [samplePod; sampleDeployment; sampleEndpoints] ]};
     dynChans := {[ 2%positive := [sampleUnstructured] ]};
     nodeChans := {[ 3%positive := [] ]};
     routines := [];
     glog := [] |}.

(** The extraction functions of the spec, except that the one for
    deployments panics. *)
Definition faultyExtractors : Extractors :=
  {| transformCommon := Spec.transformCommon;
     apiGroupVersion := Spec.apiGroupVersion;
     transformConfigMap := Spec.dedicated (noSpecific core_ConfigMap);
     transformCronJob := Spec.dedicated (noSpecific batchBeta_CronJob);
     transformDaemonSet := Spec.dedicated (noSpecific apps_DaemonSet);
     transformDeployment := fun _ => Panicked "index out of range";
     transformJob := Spec.dedicated (noSpecific batch_Job);
     transformNamespace := Spec.dedicated (noSpecific core_Namespace);
     transformNode := Spec.dedicated (noSpecific core_Node);
     transformPersistentVolume := Spec.dedicated (noSpecific core_PersistentVolume);
     transformPod := Spec.dedicated (noSpecific core_Pod);
     transformReplicaSet := Spec.dedicated (noSpecific apps_ReplicaSet);
     transformSecret := Spec.dedicated (noSpecific core_Secret);
     transformService := Spec.dedicated (noSpecific core_Service);
     transformStatefulSet := Spec.dedicated (noSpecific apps_StatefulSet);
     transformUnstructured := Spec.transformUnstructured |}.

(** Worker 0 holds the deployment it received, worker 1 waits; the node of
    the pod is already out and the endpoints are still queued. *)
Definition holdingWorld : World :=
  {| objChans := {[ 1%positive := [sampleEndpoints] ]};
     dynChans := {[ 2%positive := [sampleUnstructured] ]};
     nodeChans :=
       {[ 3%positive := [Spec.common (typeMeta samplePod) (objectMeta samplePod)] ]};
     routines := [ mkRoutine 1%positive 2%positive 3%positive
                     (Holding (Typed sampleDeployment));
                   mkRoutine 1%positive 2%positive 3%positive AtSelect ];
     glog := [] |}.

(** ** The extraction functions and the resources they are given *)

(** The extraction function keys its node by the UID of its resource. *)
Definition keepsUID (f : Object -> Outcome Node) : Prop :=
  forall r n, f r = Done n -> UID n = metav1.UID (objectMeta r).

(** Every extraction function keys its node by the UID of its resource. *)
Definition extractorsKeepUID `{E : Extractors} : Prop :=
  keepsUID transformCommon
  /\ Forall keepsUID registry.*2
  /\ forall u n, transformUnstructured u = Done n -> UID n = metav1.UID (uObjectMeta u).

(** The extraction function in charge of the kind of [r], the one of the
    registry or else the common one, returns on [r]. *)
Definition returnsOn `{E : Extractors} (r : Object) : Prop :=
  (forall ty f, (ty, f) ∈ registry -> concreteType r = ty -> isDone (f r) = true)
  /\ (concreteType r ∉ registry.*1 -> isDone (transformCommon r) = true).

(** No extraction function panics on a queued resource of its kind. *)
Definition extractorsReturn `{E : Extractors} (ins : list Object) (dyns : list Unstructured)
    : Prop :=
  Forall returnsOn ins
  /\ Forall (fun u => isDone (transformUnstructured u) = true) dyns.

(** ** policy.go, the common step being handed the pointer

    [transformCommon(p)] receives the adapter by value, and with it the
    pointer to the policy: through the accessors and setters of
    [machineryV1.Object] it can read and write the policy.  Here it is a
    computation on the store of policies.  [apiGroupVersion] receives a
    copy of [p.TypeMeta] and the address of the node, so it can only change
    the node. *)
Module ByReference.

Class CommonStep : Type := {
  transformCommon : PolicyResource -> M Node;
  apiGroupVersion : metav1.TypeMeta -> Node -> Node
}.

(** [BuildNode] in the order of the source: the call of [transformCommon]
    comes first, the fields of the policy are read afterwards, from the
    store that call leaves. *)
Definition BuildNode `{C : CommonStep} (p : PolicyResource) : M Node :=
  run node <~ transformCommon p in
  run pol <~ deref p in
  let node := apiGroupVersion (mcm.TypeMeta pol) node in
  let node := setProperty node "remediationAction"
                (VString (mcm.RemediationAction (mcm.Spec pol))) in
  let node := setProperty node "compliant"
                (VString (mcm.ComplianceState (mcm.Status pol))) in
  let node := setProperty node "valid"
                (VBool (mcm.Valid (mcm.Status pol))) in
  let rules := countRules (mcm.RoleTemplates (mcm.Spec pol)) (int64 0) in
  let node := setProperty node "numRules" (VInt64 rules) in
  let node := copyLabel (metav1.Labels (mcm.ObjectMeta pol)) "parent-namespace" node in
  let node := copyLabel (metav1.Labels (mcm.ObjectMeta pol)) "parent-policy" node in
  ret node.

End ByReference.

(** A common step that only reads the policy: the one of [Extractors],
    applied to the policy the pointer leads to. *)
Definition readingStep `{E : Extractors} : ByReference.CommonStep :=
  {| ByReference.transformCommon :=
       fun p => run pol <~ deref p in lift (transformCommon (asObject pol));
     ByReference.apiGroupVersion := apiGroupVersion |}.

(** [SetLabels] through the pointer: the policy at [a] gets the label
    [key]. *)
Definition setLabel (a : addr) (key value : string) : M unit :=
  fun h => match h !! a with
           | Some pol =>
               (Done tt,
                <[a := {| mcm.TypeMeta := mcm.TypeMeta pol;
                          mcm.ObjectMeta :=
                            {| metav1.Name := metav1.Name (mcm.ObjectMeta pol);
                               metav1.Namespace := metav1.Namespace (mcm.ObjectMeta pol);
                               metav1.UID := metav1.UID (mcm.ObjectMeta pol);
                               metav1.Labels :=
                                 <[key := value]> (metav1.Labels (mcm.ObjectMeta pol)) |};
                          mcm.Spec := mcm.Spec pol;
                          mcm.Status := mcm.Status pol |}]> h)
           | None => (Panicked nilDereference, h)
           end.

(** A common step that writes to the policy: it builds the node of the
    spec and then labels the policy. *)
Definition labellingStep : ByReference.CommonStep :=
  {| ByReference.transformCommon :=
       fun p =>
         run pol <~ deref p in
         run _ <~ match Policy p with
                  | Some a => setLabel a "parent-namespace" "kube-system"
                  | None => ret tt
                  end in
         ret (Spec.common (mcm.TypeMeta pol) (mcm.ObjectMeta pol));
     ByReference.apiGroupVersion := Spec.apiGroupVersion |}.

(** ** Further quantities: what the adapter writes and faults *)

(** The keys [BuildNode] assigns on top of the common node. *)
Definition policyKeys : list string :=
  ["remediationAction"; "compliant"; "valid"; "numRules";
   "parent-namespace"; "parent-policy"].

(** The line [handleRoutineExit] logs for the recovered value [r]. *)
Definition errorLine (r : PanicValue) : LogLine :=
  Error ("Error in transformer routine: " +:+ r +:+ newline).

Definition isError (line : LogLine) : bool :=
  match line with Error _ => true | Info _ => false end.

(** The error lines of a log, oldest first. *)
Definition errorsOf (log : list LogLine) : list LogLine :=
  filter (fun line => isError line = true) log.

Definition panicOf (o : Outcome Node) : option PanicValue :=
  match o with Done _ => None | Panicked r => Some r end.

Section Faults.
Context `{E : Extractors}.

(** The panic a goroutine at this program point is going to report. *)
Definition faultInFlight (p : Pc) : list PanicValue :=
  match p with
  | Holding resource =>
      match transform resource with Done _ => [] | Panicked r => [r] end
  | Panicking r => [r]
  | _ => []
  end.

(** The panics of the resources whose transformation panics. *)
Definition panicsOf (resources : list Item) : list PanicValue :=
  omap (fun resource => panicOf (transform resource)) resources.

Definition queuedFaults (t : Transformer) (w : World) : list PanicValue :=
  omap (fun r => panicOf (transform (Typed r))) (chanOf (objChans w) (Input t))
  ++ omap (fun u => panicOf (transform (Dynamic u))) (chanOf (dynChans w) (DynamicInput t)).

(** Every error line the pool has logged or is going to log. *)
Definition faultLedger (t : Transformer) (w : World) : list LogLine :=
  errorsOf (glog w)
  ++ (errorLine <$> (routines w ≫= (fun g => faultInFlight (pc g))))
  ++ (errorLine <$> queuedFaults t w).

End Faults.

(** An empty policy with the given labels, and a store holding it. *)
Definition labelledPolicy (labels : gmap string string) : mcm.Policy :=
  {| mcm.TypeMeta := {| metav1.Kind := "Policy";
                        metav1.APIVersion := "policy.mcm.ibm.com/v1alpha1" |};
     mcm.ObjectMeta := {| metav1.Name := "policy-empty"; metav1.Namespace := "mcm";
                          metav1.UID := "0d9e4b11"; metav1.Labels := labels |};
     mcm.Spec := {| mcm.RemediationAction := "inform"; mcm.RoleTemplates := [] |};
     mcm.Status := {| mcm.ComplianceState := "NonCompliant"; mcm.Valid := false |} |}.

(** [sampleWorld] with one more channel, which no transformer uses. *)
Definition sharedWorld : World :=
  setObjChans (<[ 7%positive := [sampleDeployment; samplePod] ]> (objChans sampleWorld))
    sampleWorld.

(** [sampleWorld] with an empty dynamic channel. *)
Definition typedWorld : World :=
  setDynChans {[ 2%positive := [] ]} sampleWorld.

Definition unlabelledStore : PolicyStore := {[ 1%positive := labelledPolicy ∅ ]}.

(** Extraction functions whose common node already carries a
    [parent-policy] property. *)
Definition hintingExtractors : Extractors :=
  {| transformCommon :=
       fun resource =>
         Done (setProperty
                 (Spec.common (typeMeta resource) (objectMeta resource))
                 "parent-policy" (VString "from-common"));
     apiGroupVersion := Spec.apiGroupVersion;
     transformConfigMap := Spec.dedicated (noSpecific core_ConfigMap);
     transformCronJob := Spec.dedicated (noSpecific batchBeta_CronJob);
     transformDaemonSet := Spec.dedicated (noSpecific apps_DaemonSet);
     transformDeployment := Spec.dedicated (noSpecific apps_Deployment);
     transformJob := Spec.dedicated (noSpecific batch_Job);
     transformNamespace := Spec.dedicated (noSpecific core_Namespace);
     transformNode := Spec.dedicated (noSpecific core_Node);
     transformPersistentVolume := Spec.dedicated (noSpecific core_PersistentVolume);
     transformPod := Spec.dedicated (noSpecific core_Pod);
     transformReplicaSet := Spec.dedicated (noSpecific apps_ReplicaSet);
     transformSecret := Spec.dedicated (noSpecific core_Secret);
     transformService := Spec.dedicated (noSpecific core_Service);
     transformStatefulSet := Spec.dedicated (noSpecific apps_StatefulSet);
     transformUnstructured := Spec.transformUnstructured |}.

(** * Properties *)

(** ** The Policy adapter *)

Lemma int64_small (z : Z) : (- 2 ^ 63 <= z < 2 ^ 63)%Z -> int64 z = z.
Proof.
  intros Hz. unfold int64.
  rewrite Z.mod_small by lia. lia.
Qed.

Lemma countRules_total (roleTemplates : list (option mcm.RoleTemplate)) (rules : Z) :
  (0 <= rules)%Z ->
  (rules + Z.of_nat (totalRules roleTemplates) < 2 ^ 63)%Z ->
  countRules roleTemplates rules = (rules + Z.of_nat (totalRules roleTemplates))%Z.
Proof.
  revert rules.
  induction roleTemplates as [|role rest IH]; intros rules Hpos Hbound.
  - cbn. lia.
  - assert (Hcons : totalRules (role :: rest)
                     = match role with
                       | Some r => length (mcm.Rules r)
                       | None => 0
                       end + totalRules rest) by reflexivity.
    rewrite Hcons in *. clear Hcons.
    cbn [countRules]. destruct role as [r|].
    + rewrite (int64_small (Z.of_nat _)) by lia.
      rewrite int64_small by lia.
      rewrite IH by lia. lia.
    + rewrite IH by lia. lia.
Qed.

Lemma copyLabel_lookup (labels : gmap string string) (key k : string) (node : Node) :
  Properties (copyLabel labels key node) !! k
  = if decide (key = k)
    then match labels !! key with
         | Some v => Some (VString v)
         | None => Properties node !! k
         end
    else Properties node !! k.
Proof.
  unfold copyLabel.
  destruct (labels !! key) as [v|]; cbn.
  - rewrite lookup_insert. reflexivity.
  - destruct (decide (key = k)); reflexivity.
Qed.

Lemma copyLabel_UID (labels : gmap string string) (key : string) (node : Node) :
  UID (copyLabel labels key node) = UID node.
Proof. unfold copyLabel. destruct (labels !! key); reflexivity. Qed.

(** [BuildNode] on a policy in the store, the common extraction returning
    normally: the result, one assignment after the other. *)
Lemma BuildNode_run `{E : Extractors} (h : PolicyStore) (a : addr) (pol : mcm.Policy)
    (base : Node) :
  h !! a = Some pol ->
  transformCommon (asObject pol) = Done base ->
  BuildNode (mkPolicyResource (Some a)) h =
    (Done
       (copyLabel (metav1.Labels (mcm.ObjectMeta pol)) "parent-policy"
          (copyLabel (metav1.Labels (mcm.ObjectMeta pol)) "parent-namespace"
             (setProperty
                (setProperty
                   (setProperty
                      (setProperty (apiGroupVersion (mcm.TypeMeta pol) base)
                         "remediationAction"
                         (VString (mcm.RemediationAction (mcm.Spec pol))))
                      "compliant" (VString (mcm.ComplianceState (mcm.Status pol))))
                   "valid" (VBool (mcm.Valid (mcm.Status pol))))
                "numRules"
                (VInt64 (countRules (mcm.RoleTemplates (mcm.Spec pol)) (int64 0)))))),
     h).
Proof.
  intros Hpol Hbase.
  unfold BuildNode, bind, deref, lift, ret. cbn.
  rewrite Hpol, Hbase. reflexivity.
Qed.

(** [BuildNode] never writes to the store of policies. *)
Lemma BuildNode_store `{E : Extractors} (p : PolicyResource) (h : PolicyStore) :
  (BuildNode p h).2 = h.
Proof.
  unfold BuildNode, bind, deref, lift, ret.
  destruct p as [[a|]]; cbn; [|reflexivity].
  destruct (h !! a) as [pol|]; [|reflexivity].
  destruct (transformCommon (asObject pol)); reflexivity.
Qed.

(** C6: [BuildNode] sets [numRules] to the sum of the rule counts of the
    non-nil role templates (0 when there are none) next to
    [remediationAction], [compliant] and [valid]; a policy with "enforce",
    "Compliant", valid and two role templates of 3 and 5 rules gets
    [numRules] 8.  The sum is the one of [int64], so it is required to fit. *)
Theorem BuildNode_numRules `{E : Extractors} (h : PolicyStore) (a : addr)
    (pol : mcm.Policy) (base : Node) :
  h !! a = Some pol ->
  transformCommon (asObject pol) = Done base ->
  (Z.of_nat (totalRules (mcm.RoleTemplates (mcm.Spec pol))) < 2 ^ 63)%Z ->
  exists node,
    BuildNode (mkPolicyResource (Some a)) h = (Done node, h)
    /\ Properties node !! "numRules"
       = Some (VInt64 (Z.of_nat (totalRules (mcm.RoleTemplates (mcm.Spec pol)))))
    /\ Properties node !! "remediationAction"
       = Some (VString (mcm.RemediationAction (mcm.Spec pol)))
    /\ Properties node !! "compliant"
       = Some (VString (mcm.ComplianceState (mcm.Status pol)))
    /\ Properties node !! "valid" = Some (VBool (mcm.Valid (mcm.Status pol)))
    /\ (mcm.RoleTemplates (mcm.Spec pol) = [] ->
        Properties node !! "numRules" = Some (VInt64 0))
    /\ (forall r1 r2,
          mcm.RemediationAction (mcm.Spec pol) = "enforce" ->
          mcm.ComplianceState (mcm.Status pol) = "Compliant" ->
          mcm.Valid (mcm.Status pol) = true ->
          mcm.RoleTemplates (mcm.Spec pol) = [Some r1; Some r2] ->
          length (mcm.Rules r1) = 3 ->
          length (mcm.Rules r2) = 5 ->
          Properties node !! "remediationAction" = Some (VString "enforce")
          /\ Properties node !! "compliant" = Some (VString "Compliant")
          /\ Properties node !! "valid" = Some (VBool true)
          /\ Properties node !! "numRules" = Some (VInt64 8)).
Proof.
  intros Hpol Hbase Hfit.
  eexists. split; [apply (BuildNode_run h a pol base Hpol Hbase)|].
  assert (Hcount : countRules (mcm.RoleTemplates (mcm.Spec pol)) (int64 0)
                   = Z.of_nat (totalRules (mcm.RoleTemplates (mcm.Spec pol)))).
  { rewrite (int64_small 0) by lia. rewrite countRules_total by lia. lia. }
  assert (Hnum : forall node0 : Node,
             Properties
               (copyLabel (metav1.Labels (mcm.ObjectMeta pol)) "parent-policy"
                  (copyLabel (metav1.Labels (mcm.ObjectMeta pol)) "parent-namespace"
                     node0)) !! "numRules" = Properties node0 !! "numRules"
             /\ Properties
               (copyLabel (metav1.Labels (mcm.ObjectMeta pol)) "parent-policy"
                  (copyLabel (metav1.Labels (mcm.ObjectMeta pol)) "parent-namespace"
                     node0)) !! "remediationAction"
                = Properties node0 !! "remediationAction"
             /\ Properties
               (copyLabel (metav1.Labels (mcm.ObjectMeta pol)) "parent-policy"
                  (copyLabel (metav1.Labels (mcm.ObjectMeta pol)) "parent-namespace"
                     node0)) !! "compliant" = Properties node0 !! "compliant"
             /\ Properties
               (copyLabel (metav1.Labels (mcm.ObjectMeta pol)) "parent-policy"
                  (copyLabel (metav1.Labels (mcm.ObjectMeta pol)) "parent-namespace"
                     node0)) !! "valid" = Properties node0 !! "valid").
  { intros node0. rewrite !copyLabel_lookup.
    repeat split; repeat (case_decide; [discriminate|]); reflexivity. }
  rewrite Hcount.
  match goal with
  | |- context [copyLabel _ "parent-policy" (copyLabel _ "parent-namespace" ?n)] =>
      destruct (Hnum n) as (H1 & H2 & H3 & H4)
  end.
  rewrite H1, H2, H3, H4. clear H1 H2 H3 H4 Hnum.
  unfold setProperty; cbn [Properties].
  rewrite lookup_insert_eq.
  rewrite !(lookup_insert_ne _ "numRules") by discriminate.
  rewrite lookup_insert_eq.
  rewrite !(lookup_insert_ne _ "valid") by discriminate.
  rewrite lookup_insert_eq.
  rewrite !(lookup_insert_ne _ "compliant") by discriminate.
  rewrite lookup_insert_eq.
  split; [reflexivity|]. split; [reflexivity|].
  split; [reflexivity|]. split; [reflexivity|].
  split.
  - intros Hnil. rewrite Hnil. reflexivity.
  - intros r1 r2 Hra Hcs Hv Hrt Hl1 Hl2.
    rewrite Hra, Hcs, Hv, Hrt.
    unfold totalRules. cbn [sum_list_with]. rewrite Hl1, Hl2.
    repeat split; reflexivity.
Qed.

Lemma BuildNode_numRules_witness :
  sampleStore !! 1%positive = Some samplePolicy
  /\ (Z.of_nat (totalRules (mcm.RoleTemplates (mcm.Spec samplePolicy))) < 2 ^ 63)%Z
  /\ exists node,
       BuildNode (E := specExtractors noSpecific) samplePolicyResource sampleStore
       = (Done node, sampleStore)
       /\ Properties node !! "numRules" = Some (VInt64 8)
       /\ Properties node !! "remediationAction" = Some (VString "enforce")
       /\ Properties node !! "compliant" = Some (VString "Compliant")
       /\ Properties node !! "valid" = Some (VBool true).
Proof.
  assert (Hin : sampleStore !! 1%positive = Some samplePolicy) by reflexivity.
  assert (Hfit : (Z.of_nat (totalRules (mcm.RoleTemplates (mcm.Spec samplePolicy)))
                  < 2 ^ 63)%Z) by (vm_compute; reflexivity).
  split; [exact Hin|]. split; [exact Hfit|].
  destruct (BuildNode_numRules (E := specExtractors noSpecific)
              sampleStore 1%positive samplePolicy _ Hin eq_refl Hfit)
    as (node & Hrun & _ & _ & _ & _ & _ & Hscenario).
  exists node. split; [exact Hrun|].
  destruct (Hscenario _ _ eq_refl eq_refl eq_refl eq_refl eq_refl eq_refl)
    as (Hra & Hcs & Hv & Hnum).
  repeat split; assumption.
Defined.

(** C7: the node has the property [parent-namespace] (respectively
    [parent-policy]) exactly when the labels of the policy have that key,
    with the value of the label; without the label the key is absent.  The
    common part of the node is required not to use these two keys. *)
Theorem BuildNode_parent_hints `{E : Extractors} (h : PolicyStore) (a : addr)
    (pol : mcm.Policy) (base : Node) :
  h !! a = Some pol ->
  transformCommon (asObject pol) = Done base ->
  Properties (apiGroupVersion (mcm.TypeMeta pol) base) !! "parent-namespace" = None ->
  Properties (apiGroupVersion (mcm.TypeMeta pol) base) !! "parent-policy" = None ->
  exists node,
    BuildNode (mkPolicyResource (Some a)) h = (Done node, h)
    /\ Properties node !! "parent-namespace"
       = VString <$> metav1.Labels (mcm.ObjectMeta pol) !! "parent-namespace"
    /\ Properties node !! "parent-policy"
       = VString <$> metav1.Labels (mcm.ObjectMeta pol) !! "parent-policy"
    /\ (is_Some (Properties node !! "parent-namespace")
        <-> is_Some (metav1.Labels (mcm.ObjectMeta pol) !! "parent-namespace"))
    /\ (is_Some (Properties node !! "parent-policy")
        <-> is_Some (metav1.Labels (mcm.ObjectMeta pol) !! "parent-policy"))
    /\ (metav1.Labels (mcm.ObjectMeta pol) !! "parent-namespace" = None ->
        "parent-namespace" ∉ dom (Properties node))
    /\ (metav1.Labels (mcm.ObjectMeta pol) !! "parent-policy" = None ->
        "parent-policy" ∉ dom (Properties node)).
Proof.
  intros Hpol Hbase Hns Hpp.
  eexists. split; [apply (BuildNode_run h a pol base Hpol Hbase)|].
  set (labels := metav1.Labels (mcm.ObjectMeta pol)).
  match goal with
  | |- context [copyLabel labels "parent-policy" ?n] => set (withNs := n)
  end.
  assert (Hn : Properties withNs !! "parent-namespace" = VString <$> labels !! "parent-namespace").
  { subst withNs. rewrite copyLabel_lookup. rewrite decide_True by reflexivity.
    destruct (labels !! "parent-namespace"); [reflexivity|].
    unfold setProperty; cbn [Properties].
    rewrite !lookup_insert_ne by discriminate. exact Hns. }
  assert (Hp0 : Properties withNs !! "parent-policy" = None).
  { subst withNs. rewrite copyLabel_lookup. rewrite decide_False by discriminate.
    unfold setProperty; cbn [Properties].
    rewrite !lookup_insert_ne by discriminate. exact Hpp. }
  assert (Hn' : Properties (copyLabel labels "parent-policy" withNs) !! "parent-namespace"
                = VString <$> labels !! "parent-namespace").
  { rewrite copyLabel_lookup. rewrite decide_False by discriminate. exact Hn. }
  assert (Hp : Properties (copyLabel labels "parent-policy" withNs) !! "parent-policy"
               = VString <$> labels !! "parent-policy").
  { rewrite copyLabel_lookup. rewrite decide_True by reflexivity.
    destruct (labels !! "parent-policy"); [reflexivity | exact Hp0]. }
  split; [exact Hn'|]. split; [exact Hp|].
  split; [rewrite Hn'; apply fmap_is_Some|].
  split; [rewrite Hp; apply fmap_is_Some|].
  split.
  - intros Hnone. rewrite not_elem_of_dom, Hn', Hnone. reflexivity.
  - intros Hnone. rewrite not_elem_of_dom, Hp, Hnone. reflexivity.
Qed.

Lemma BuildNode_parent_hints_witness :
  sampleStore !! 1%positive = Some samplePolicy
  /\ exists node,
       BuildNode (E := specExtractors noSpecific) samplePolicyResource sampleStore
       = (Done node, sampleStore)
       /\ Properties node !! "parent-policy" = Some (VString "policy-all")
       /\ Properties node !! "parent-namespace" = None.
Proof.
  assert (Hin : sampleStore !! 1%positive = Some samplePolicy) by reflexivity.
  split; [exact Hin|].
  destruct (BuildNode_parent_hints (E := specExtractors noSpecific)
              sampleStore 1%positive samplePolicy _ Hin eq_refl eq_refl eq_refl)
    as (node & Hrun & Hns & Hpp & _).
  exists node. split; [exact Hrun|]. split; [exact Hpp | exact Hns].
Defined.



Lemma readingStep_reads `{E : Extractors} (p : PolicyResource) (h : PolicyStore) :
  (ByReference.transformCommon (CommonStep := readingStep) p h).2 = h.
Proof.
  cbn. unfold bind, deref, lift.
  destruct (Policy p) as [a|]; [|reflexivity].
  destruct (h !! a); reflexivity.
Qed.

(** With a common step that only reads, the two embeddings of [BuildNode]
    agree. *)
Lemma readingStep_BuildNode `{E : Extractors} (p : PolicyResource) (h : PolicyStore) :
  ByReference.BuildNode (C := readingStep) p h = BuildNode p h.
Proof.
  unfold ByReference.BuildNode, BuildNode. cbn. unfold bind, deref, lift, ret.
  destruct (Policy p) as [a|]; [|reflexivity].
  destruct (h !! a) as [pol|] eqn:Hh; [|reflexivity].
  destruct (transformCommon (asObject pol)); [|reflexivity].
  rewrite Hh. reflexivity.
Qed.



(** What the property rules out: with a common step that labels the
    policy, the first call of [BuildNode] changes the policy, and the second
    call returns a node with other properties. *)
Example BuildNode_after_a_writing_step :
  exists n1 n2 h1 h2 l1 l2,
    ByReference.BuildNode (C := labellingStep) samplePolicyResource sampleStore
    = (Done n1, h1)
    /\ ByReference.BuildNode (C := labellingStep) samplePolicyResource h1 = (Done n2, h2)
    /\ h1 <> sampleStore
    /\ Properties n1 !! "labels" = Some (VLabels l1)
    /\ Properties n2 !! "labels" = Some (VLabels l2)
    /\ l1 !! "parent-namespace" = None
    /\ l2 !! "parent-namespace" = Some "kube-system".
Proof.
  do 6 eexists.
  split; [reflexivity|]. split; [reflexivity|].
  split.
  - intros Heq.
    assert (Hl : (metav1.Labels ∘ mcm.ObjectMeta) <$> sampleStore !! 1%positive
                 = Some {[ "parent-policy" := "policy-all" ]}) by reflexivity.
    rewrite <- Heq in Hl. vm_compute in Hl. discriminate.
  - repeat split; reflexivity.
Qed.

(** C10: [BuildEdges] returns the empty list of edges and the store it was
    given, whatever the policy and its labels are. *)
Theorem BuildEdges_empty (p : PolicyResource) (ns : NodeStore) (h : PolicyStore) :
  BuildEdges p ns h = (Done ([], ns), h).
Proof. reflexivity. Qed.

(** ** The worker pool *)

Lemma go_routines (i d o : chan) (w : World) :
  routines (go i d o w) = routines w ++ [mkRoutine i d o AtEntry].
Proof. reflexivity. Qed.

Lemma startLoop_spawns (fuel : nat) (t : Transformer) (i numRoutines : Z) (w : World) :
  Z.to_nat (numRoutines - i) <= fuel ->
  startLoop fuel t i numRoutines w
  = setRoutines
      (routines w
       ++ repeat (mkRoutine (Input t) (DynamicInput t) (Output t) AtEntry)
                 (Z.to_nat (numRoutines - i))) w.
Proof.
  revert i w. induction fuel as [|fuel IH]; intros i w Hfuel.
  - cbn. replace (Z.to_nat (numRoutines - i)) with 0 by lia.
    cbn. rewrite app_nil_r. destruct w; reflexivity.
  - cbn [startLoop]. destruct (Z.ltb_spec i numRoutines) as [Hlt|Hge].
    + rewrite IH by lia.
      replace (Z.to_nat (numRoutines - i)) with (S (Z.to_nat (numRoutines - (i + 1))))
        by lia.
      rewrite go_routines. cbn [repeat]. rewrite <- app_assoc. reflexivity.
    + replace (Z.to_nat (numRoutines - i)) with 0 by lia.
      cbn. rewrite app_nil_r. destruct w; reflexivity.
Qed.

(** C2: [Start] returns an error exactly when [numRoutines < 1], and then
    starts no goroutine; otherwise it returns nil after starting exactly
    [numRoutines] goroutines on the three channels of the transformer.
    It performs no channel operation and waits for none of the goroutines,
    which are all still at their entry when it returns. *)
Theorem Start_spec (t : Transformer) (numRoutines : Z) (w : World) :
  ((Start t numRoutines w).1 <> None <-> (numRoutines < 1)%Z)
  /\ ((numRoutines < 1)%Z ->
      routines (Start t numRoutines w).2 = routines w)
  /\ ((1 <= numRoutines)%Z ->
      (Start t numRoutines w).1 = None
      /\ routines (Start t numRoutines w).2
         = routines w
           ++ repeat (mkRoutine (Input t) (DynamicInput t) (Output t) AtEntry)
                     (Z.to_nat numRoutines))
  /\ objChans (Start t numRoutines w).2 = objChans w
  /\ dynChans (Start t numRoutines w).2 = dynChans w
  /\ nodeChans (Start t numRoutines w).2 = nodeChans w
  /\ glog (Start t numRoutines w).2 = glog w ++ [Info "Transformer started"].
Proof.
  unfold Start.
  destruct (Z.ltb_spec numRoutines 1) as [Hlt|Hge]; cbn [fst snd].
  - repeat split; try reflexivity; try lia; try discriminate.
  - rewrite startLoop_spawns by lia.
    replace (numRoutines - 0)%Z with numRoutines by lia.
    repeat split; try reflexivity; try lia; try congruence.
Qed.

Lemma Start_spec_witness :
  (Start sampleTransformer 2 sampleWorld).1 = None
  /\ length (routines (Start sampleTransformer 2 sampleWorld).2) = 2
  /\ (Start sampleTransformer 0 sampleWorld).1 <> None
  /\ routines (Start sampleTransformer 0 sampleWorld).2 = [].
Proof.
  destruct (Start_spec sampleTransformer 2 sampleWorld) as (_ & _ & Hok & _).
  destruct (Start_spec sampleTransformer 0 sampleWorld) as (Herr & Hnone & _).
  assert (H2 : (1 <= 2)%Z) by lia.
  assert (H0 : (0 < 1)%Z) by lia.
  destruct (Hok H2) as [Hnil Hrs].
  split; [exact Hnil|]. split; [rewrite Hrs; reflexivity|].
  split; [apply Herr, H0 | apply Hnone, H0].
Defined.

(** *** Lists of goroutines *)

Lemma sum_list_insert {A} (f : A -> nat) (l : list A) (i : nat) (x y : A) :
  l !! i = Some x ->
  f x + sum_list_with f (<[i := y]> l) = f y + sum_list_with f l.
Proof.
  revert i. induction l as [|a l IH]; intros [|i] Hi; try discriminate.
  - injection Hi as ->. csimpl. lia.
  - csimpl in *. specialize (IH i Hi). lia.
Qed.

Lemma bind_insert_perm {A B} (f : A -> list B) (l : list A) (i : nat) (x y : A) :
  l !! i = Some x ->
  f x ++ (<[i := y]> l ≫= f) ≡ₚ f y ++ (l ≫= f).
Proof.
  revert i. induction l as [|a l IH]; intros [|i] Hi; try discriminate.
  - injection Hi as ->. csimpl.
    rewrite !app_assoc. apply Permutation_app_tail, Permutation_app_comm.
  - csimpl in *. specialize (IH i Hi).
    rewrite !app_assoc.
    rewrite (Permutation_app_comm (f x) (f a)), (Permutation_app_comm (f y) (f a)).
    rewrite <- !app_assoc. apply Permutation_app_head, IH.
Qed.

Lemma chanOf_insert_eq {A} (m : gmap chan (list A)) (c : chan) (q : list A) :
  chanOf (<[c := q]> m) c = q.
Proof. unfold chanOf. rewrite lookup_insert_eq. reflexivity. Qed.

Lemma chanOf_Some {A} (m : gmap chan (list A)) (c : chan) (q : list A) :
  m !! c = Some q -> chanOf m c = q.
Proof. unfold chanOf. intros ->. reflexivity. Qed.

(** *** The step function and the step relation agree *)

Section Steps.
Context `{E : Extractors}.

Lemma transformRoutine_routineStep (i : nat) (b : Branch) (w w' : World) :
  transformRoutine i b w = Some w' <-> exists g, routines w !! i = Some g /\ routineStep i g w b w'.
Proof.
  unfold transformRoutine. split.
  - destruct (routines w !! i) as [g|] eqn:Hg; [|discriminate].
    intros H. exists g. split; [reflexivity|].
    destruct (pc g) as [| |resource|transformed|r|] eqn:Hpc.
    + injection H as <-. by constructor.
    + destruct b.
      * destruct (objChans w !! input g) as [[|resource rest]|] eqn:Hq;
          try discriminate.
        injection H as <-. by eapply routineStep_receive.
      * destruct (dynChans w !! dynamicInput g) as [[|resource rest]|] eqn:Hq;
          try discriminate.
        injection H as <-. by eapply routineStep_receive_dynamic.
    + destruct (transform resource) as [n|v] eqn:Ht; injection H as <-.
      * by eapply routineStep_transform.
      * by eapply routineStep_panic.
    + destruct (nodeChans w !! output g) as [sent|] eqn:Hq; [|discriminate].
      injection H as <-. by eapply routineStep_send.
    + injection H as <-. by eapply routineStep_exit.
    + discriminate.
  - intros (g & -> & Hf).
    destruct Hf as [b Hpc|r rest Hpc Hq|r rest Hpc Hq|b it n Hpc Ht|b it v Hpc Ht
                   |b n sent Hpc Hq|b v Hpc]; rewrite Hpc; try rewrite Hq;
      try rewrite Ht; reflexivity.
Qed.

Lemma firstEnabled_step (candidates : list nat) (w w' : World) :
  firstEnabled candidates w = Some w' -> step w w'.
Proof.
  induction candidates as [|i rest IH]; cbn; [discriminate|].
  destruct (transformRoutine i FromInput w) as [w1|] eqn:H1.
  - intros [= <-]. by exists i, FromInput.
  - destruct (transformRoutine i FromDynamicInput w) as [w2|] eqn:H2.
    + intros [= <-]. by exists i, FromDynamicInput.
    + exact IH.
Qed.

Lemma firstEnabled_None (candidates : list nat) (w : World) (i : nat) (b : Branch) :
  firstEnabled candidates w = None -> i ∈ candidates -> transformRoutine i b w = None.
Proof.
  induction candidates as [|j rest IH]; cbn; intros Hnone Hin.
  - by apply elem_of_nil in Hin.
  - destruct (transformRoutine j FromInput w) eqn:H1; [discriminate|].
    destruct (transformRoutine j FromDynamicInput w) eqn:H2; [discriminate|].
    apply elem_of_cons in Hin as [->|Hin]; [by destruct b | by apply IH].
Qed.

Lemma pick_step (w w' : World) : pick w = Some w' -> step w w'.
Proof. apply firstEnabled_step. Qed.

(** [pick] finds a step whenever there is one. *)
Lemma pick_None (w : World) : pick w = None <-> forall w', ~ step w w'.
Proof.
  split.
  - intros Hnone w' (i & b & Hfire).
    assert (Hi : i < length (routines w)).
    { unfold transformRoutine in Hfire. destruct (routines w !! i) eqn:Hg; [|discriminate].
      by eapply lookup_lt_Some. }
    rewrite (firstEnabled_None _ w i b Hnone) in Hfire; [discriminate|].
    apply elem_of_seq. lia.
  - intros Hstuck. destruct (pick w) as [w'|] eqn:Hp; [|reflexivity].
    exfalso. eapply Hstuck, pick_step, Hp.
Qed.

End Steps.

(** *** What every step preserves *)

Section Invariants.
Context `{E : Extractors} (t : Transformer).

Lemma boundTo_setPc (g : Routine) (p : Pc) :
  boundTo t g ->
  boundTo t {| input := input g; dynamicInput := dynamicInput g;
               output := output g; pc := p |}.
Proof. intros H. exact H. Qed.

(** Goroutines stay on the channels they were started on, and a
    replacement gets the channels of the goroutine it replaces. *)
Lemma routineStep_bound (i : nat) (g : Routine) (b : Branch) (w w' : World) :
  Forall (boundTo t) (routines w) ->
  routines w !! i = Some g ->
  routineStep i g w b w' ->
  Forall (boundTo t) (routines w').
Proof.
  intros Hall Hg Hf.
  assert (Hb : boundTo t g) by (eapply Forall_lookup_1; eassumption).
  destruct Hf; cbn; try (apply Forall_insert; [exact Hall | exact Hb]).
  apply Forall_app. split.
  - apply Forall_insert; [exact Hall | exact Hb].
  - apply Forall_singleton. exact Hb.
Qed.

Lemma routineStep_liveCount (i : nat) (g : Routine) (b : Branch) (w w' : World) :
  routines w !! i = Some g ->
  routineStep i g w b w' ->
  liveCount w' = liveCount w.
Proof.
  intros Hg Hf. unfold liveCount.
  pose proof (fun g' => sum_list_insert (fun g => if isLive (pc g) then 1 else 0)
                          (routines w) i g g' Hg) as Hsum.
  destruct Hf as [b Hpc|r rest Hpc Hq|r rest Hpc Hq|b it n Hpc Ht|b it v Hpc Ht
                 |b n sent Hpc Hq|b v Hpc]; cbn;
    match goal with
    | |- context [<[i := ?g']> (routines w)] => specialize (Hsum g')
    end; cbn in Hsum; rewrite Hpc in Hsum; cbn in Hsum; try lia.
  rewrite sum_list_with_app. cbn. lia.
Qed.

Lemma routineStep_output_open (i : nat) (g : Routine) (b : Branch) (w w' : World) :
  routineStep i g w b w' ->
  is_Some (nodeChans w !! Output t) ->
  is_Some (nodeChans w' !! Output t).
Proof.
  intros Hf Hopen. destruct Hf; cbn; try exact Hopen.
  rewrite lookup_insert. case_decide; [eexists; reflexivity | exact Hopen].
Qed.

(** Every step uses up some of [measure]. *)
Lemma routineStep_measure (i : nat) (g : Routine) (b : Branch) (w w' : World) :
  Forall (boundTo t) (routines w) ->
  routines w !! i = Some g ->
  routineStep i g w b w' ->
  measure t w' < measure t w.
Proof.
  intros Hall Hg Hf.
  destruct (Forall_lookup_1 _ _ _ _ Hall Hg) as (Hin & Hdyn & Hout).
  unfold measure, backlog.
  pose proof (fun g' => sum_list_insert (weight ∘ pc) (routines w) i g g' Hg) as Hsum.
  destruct Hf as [b Hpc|r rest Hpc Hq|r rest Hpc Hq|b it n Hpc Ht|b it v Hpc Ht
                 |b n sent Hpc Hq|b v Hpc]; cbn;
    match goal with
    | |- context [<[i := ?g']> (routines w)] => specialize (Hsum g')
    end; cbn in Hsum; rewrite Hpc in Hsum; cbn in Hsum; try lia.
  - rewrite Hin in *. rewrite chanOf_insert_eq, (chanOf_Some _ _ _ Hq). cbn. lia.
  - rewrite Hdyn in *. rewrite chanOf_insert_eq, (chanOf_Some _ _ _ Hq). cbn. lia.
  - rewrite sum_list_with_app. cbn. lia.
Qed.

(** No step changes the nodes sent or still to be sent: a receive moves a
    resource from a channel to a goroutine, a send moves its node to the
    output, and a panic concerns a resource that had no node to give. *)
Lemma routineStep_ledger (i : nat) (g : Routine) (b : Branch) (w w' : World) :
  Forall (boundTo t) (routines w) ->
  routines w !! i = Some g ->
  routineStep i g w b w' ->
  ledger t w' ≡ₚ ledger t w.
Proof.
  intros Hall Hg Hf.
  destruct (Forall_lookup_1 _ _ _ _ Hall Hg) as (Hin & Hdyn & Hout).
  unfold ledger, queued.
  pose proof (fun g' => bind_insert_perm (fun g => inFlight (pc g))
                          (routines w) i g g' Hg) as Hperm.
  destruct Hf as [b Hpc|r rest Hpc Hq|r rest Hpc Hq|b it n Hpc Ht|b it v Hpc Ht
                 |b n sent Hpc Hq|b v Hpc]; cbn;
    match goal with
    | |- context [<[i := ?g']> (routines w)] => specialize (Hperm g')
    end; cbn in Hperm; rewrite Hpc in Hperm; cbn in Hperm.
  - rewrite Hperm. reflexivity.
  - rewrite Hin in *. rewrite chanOf_insert_eq, (chanOf_Some _ _ _ Hq).
    rewrite Hperm. cbn.
    destruct (transformTyped r) as [n|v]; cbn; [|reflexivity].
    apply Permutation_app_head. apply Permutation_middle.
  - rewrite Hdyn in *. rewrite chanOf_insert_eq, (chanOf_Some _ _ _ Hq).
    rewrite Hperm. cbn.
    destruct (transformUnstructured r) as [n|v]; cbn; [|reflexivity].
    apply Permutation_app_head.
    rewrite !app_assoc. rewrite <- Permutation_middle. reflexivity.
  - rewrite Ht in Hperm. apply (Permutation_app_inv_l [n]) in Hperm.
    rewrite Hperm. reflexivity.
  - rewrite Ht in Hperm. cbn in Hperm. rewrite Hperm. reflexivity.
  - rewrite Hout in *. rewrite chanOf_insert_eq, (chanOf_Some _ _ _ Hq).
    rewrite <- Hperm. rewrite <- !app_assoc. reflexivity.
  - rewrite bind_app. cbn. rewrite app_nil_r. rewrite Hperm. reflexivity.
Qed.

End Invariants.

(** *** Runs *)

Section Runs.
Context `{E : Extractors} (t : Transformer).

Lemma step_poolOf (w w' : World) : poolOf t w -> step w w' -> poolOf t w'.
Proof.
  intros [Hall Hopen] (i & b & Hfire).
  apply transformRoutine_routineStep in Hfire as (g & Hg & Hf). split.
  - eapply routineStep_bound; eassumption.
  - eapply routineStep_output_open; eassumption.
Qed.

Lemma step_measure (w w' : World) :
  poolOf t w -> step w w' -> measure t w' < measure t w.
Proof.
  intros [Hall _] (i & b & Hfire).
  apply transformRoutine_routineStep in Hfire as (g & Hg & Hf).
  eapply routineStep_measure; eassumption.
Qed.

Lemma step_ledger (w w' : World) :
  poolOf t w -> step w w' -> ledger t w' ≡ₚ ledger t w.
Proof.
  intros [Hall _] (i & b & Hfire).
  apply transformRoutine_routineStep in Hfire as (g & Hg & Hf).
  eapply routineStep_ledger; eassumption.
Qed.

Lemma step_liveCount (w w' : World) : step w w' -> liveCount w' = liveCount w.
Proof.
  intros (i & b & Hfire).
  apply transformRoutine_routineStep in Hfire as (g & Hg & Hf).
  eapply routineStep_liveCount; eassumption.
Qed.

Lemma steps_invariants (k : nat) (w w' : World) :
  poolOf t w ->
  steps k w w' ->
  poolOf t w'
  /\ k + measure t w' <= measure t w
  /\ ledger t w' ≡ₚ ledger t w
  /\ liveCount w' = liveCount w.
Proof.
  intros Hpool Hsteps. induction Hsteps as [w|k w w1 w2 Hstep Hsteps IH].
  - split; [exact Hpool|]. split; [lia|]. split; reflexivity.
  - pose proof (step_poolOf _ _ Hpool Hstep) as Hpool1.
    destruct (IH Hpool1) as (Hp & Hm & Hl & Hc).
    pose proof (step_measure _ _ Hpool Hstep).
    split; [exact Hp|]. split; [lia|]. split.
    + rewrite Hl. by apply step_ledger.
    + rewrite Hc. by apply step_liveCount.
Qed.

(** The scheduler [runFor] reaches a world where nothing can move. *)
Lemma runFor_quiescent (fuel : nat) (w : World) :
  poolOf t w ->
  measure t w <= fuel ->
  exists k, steps k w (runFor fuel w) /\ pick (runFor fuel w) = None.
Proof.
  revert w. induction fuel as [|fuel IH]; intros w Hpool Hfuel.
  - exists 0. split; [constructor|]. cbn.
    destruct (pick w) as [w'|] eqn:Hp; [|reflexivity].
    apply pick_step in Hp. pose proof (step_measure _ _ Hpool Hp). lia.
  - cbn. destruct (pick w) as [w'|] eqn:Hp.
    + pose proof (pick_step _ _ Hp) as Hstep.
      pose proof (step_measure _ _ Hpool Hstep).
      destruct (IH w' (step_poolOf _ _ Hpool Hstep)) as (k & Hk & Hq); [lia|].
      exists (S k). split; [econstructor; eassumption | exact Hq].
    + exists 0. split; [constructor | exact Hp].
Qed.

Lemma bind_nil {A B} (f : A -> list B) (l : list A) :
  Forall (fun x => f x = []) l -> l ≫= f = [].
Proof.
  induction 1 as [|x l Hx _ IH]; [reflexivity|].
  csimpl. rewrite Hx, IH. reflexivity.
Qed.

Lemma liveCount_pos (w : World) :
  1 <= liveCount w -> exists i g, routines w !! i = Some g /\ isLive (pc g) = true.
Proof.
  unfold liveCount. induction (routines w) as [|g l IH]; cbn; [lia|].
  destruct (isLive (pc g)) eqn:Hlive.
  - intros _. by exists 0, g.
  - intros Hl. destruct IH as (i & g' & Hi & Hg'); [lia|]. by exists (S i), g'.
Qed.

(** When nothing can move in a pool with a live goroutine, the intake
    channels are empty, no goroutine holds anything, and so every node of
    the ledger is in the output channel. *)
Lemma quiescent_ledger (w : World) :
  poolOf t w ->
  1 <= liveCount w ->
  pick w = None ->
  chanOf (objChans w) (Input t) = []
  /\ chanOf (dynChans w) (DynamicInput t) = []
  /\ Forall (fun g => pc g = AtSelect \/ pc g = Exited) (routines w)
  /\ ledger t w = chanOf (nodeChans w) (Output t).
Proof.
  intros [Hall [sent Hopen]] Hlive Hnone.
  assert (Hstuck : forall i g b, routines w !! i = Some g -> transformRoutine i b w = None).
  { intros i g b Hg. eapply firstEnabled_None; [exact Hnone|].
    apply elem_of_seq. apply lookup_lt_Some in Hg. lia. }
  assert (Hpcs : Forall (fun g => pc g = AtSelect \/ pc g = Exited) (routines w)).
  { apply Forall_lookup_2. intros i g Hg.
    pose proof (Hstuck i g FromInput Hg) as Hf.
    destruct (Forall_lookup_1 _ _ _ _ Hall Hg) as (_ & _ & Hout).
    unfold transformRoutine in Hf. rewrite Hg in Hf.
    destruct (pc g) as [| |it|n|v|]; try discriminate; auto.
    - destruct (transform it); discriminate.
    - rewrite Hout, Hopen in Hf. discriminate. }
  destruct (liveCount_pos w Hlive) as (i & g & Hg & Hglive).
  destruct (Forall_lookup_1 _ _ _ _ Hall Hg) as (Hin & Hdyn & _).
  assert (Hsel : pc g = AtSelect).
  { destruct (Forall_lookup_1 _ _ _ _ Hpcs Hg) as [Hs|Hx]; [exact Hs|].
    rewrite Hx in Hglive. discriminate. }
  assert (Hobj : chanOf (objChans w) (Input t) = []).
  { pose proof (Hstuck i g FromInput Hg) as Hf.
    unfold transformRoutine in Hf. rewrite Hg, Hsel, Hin in Hf. unfold chanOf.
    destruct (objChans w !! Input t) as [[|r rest]|]; try reflexivity. discriminate. }
  assert (Hdy : chanOf (dynChans w) (DynamicInput t) = []).
  { pose proof (Hstuck i g FromDynamicInput Hg) as Hf.
    unfold transformRoutine in Hf. rewrite Hg, Hsel, Hdyn in Hf. unfold chanOf.
    destruct (dynChans w !! DynamicInput t) as [[|r rest]|]; try reflexivity.
    discriminate. }
  split; [exact Hobj|]. split; [exact Hdy|]. split; [exact Hpcs|].
  unfold ledger, queued. rewrite Hobj, Hdy. cbn.
  rewrite bind_nil; [by rewrite !app_nil_r|].
  eapply Forall_impl; [exact Hpcs|]. intros g' [-> | ->]; reflexivity.
Qed.

End Runs.

(** *** One turn of the loop *)

Section Iteration.
Context `{E : Extractors}.

Lemma transformRoutine_after_setPc (i : nat) (g : Routine) (p : Pc) (w : World) :
  i < length (routines w) ->
  routines (setPc i g p w) !! i
  = Some {| input := input g; dynamicInput := dynamicInput g;
            output := output g; pc := p |}.
Proof. intros Hi. cbn. by apply list_lookup_insert_eq. Qed.

(** From the [select], a goroutine that receives from [input] a resource
    whose transformation returns [n] is back at the [select] three steps
    later: the head of [input] is gone, [n] is the newest element of
    [output], and nothing else has changed. *)
Lemma iteration_input (i : nat) (g : Routine) (w : World)
    (r : Object) (rest : list Object) (sent : list Node) (n : Node) :
  routines w !! i = Some g ->
  pc g = AtSelect ->
  objChans w !! input g = Some (r :: rest) ->
  nodeChans w !! output g = Some sent ->
  transform (Typed r) = Done n ->
  iteration i FromInput w
  = Some {| objChans := <[input g := rest]> (objChans w);
            dynChans := dynChans w;
            nodeChans := <[output g := sent ++ [n]]> (nodeChans w);
            routines := routines w;
            glog := glog w |}.
Proof.
  intros Hg Hpc Hq Hout Ht.
  assert (Hi : i < length (routines w)) by (eapply lookup_lt_Some; eassumption).
  unfold iteration.
  assert (H1 : transformRoutine i FromInput w
               = Some (setPc i g (Holding (Typed r))
                         (setObjChans (<[input g := rest]> (objChans w)) w))).
  { unfold transformRoutine. rewrite Hg, Hpc, Hq. reflexivity. }
  rewrite H1. cbn [mbind option_bind].
  set (w1 := setPc i g (Holding (Typed r)) _).
  assert (H2 : transformRoutine i FromInput w1 = Some (setPc i g (AtSend n) w1)).
  { unfold transformRoutine. subst w1. rewrite transformRoutine_after_setPc by exact Hi.
    cbn [pc]. rewrite Ht. reflexivity. }
  rewrite H2. cbn [mbind option_bind].
  unfold transformRoutine. rewrite transformRoutine_after_setPc
    by (subst w1; cbn; rewrite length_insert; exact Hi).
  cbn [pc output]. subst w1. cbn [nodeChans setPc setRoutines setObjChans].
  rewrite Hout. f_equal. unfold setPc, setNodeChans, setRoutines. cbn.
  f_equal. rewrite !list_insert_insert_eq. apply list_insert_id.
  rewrite Hg. f_equal. destruct g; cbn in *. by subst.
Qed.

Lemma iteration_dynamicInput (i : nat) (g : Routine) (w : World)
    (u : Unstructured) (rest : list Unstructured) (sent : list Node) (n : Node) :
  routines w !! i = Some g ->
  pc g = AtSelect ->
  dynChans w !! dynamicInput g = Some (u :: rest) ->
  nodeChans w !! output g = Some sent ->
  transform (Dynamic u) = Done n ->
  iteration i FromDynamicInput w
  = Some {| objChans := objChans w;
            dynChans := <[dynamicInput g := rest]> (dynChans w);
            nodeChans := <[output g := sent ++ [n]]> (nodeChans w);
            routines := routines w;
            glog := glog w |}.
Proof.
  intros Hg Hpc Hq Hout Ht.
  assert (Hi : i < length (routines w)) by (eapply lookup_lt_Some; eassumption).
  unfold iteration.
  assert (H1 : transformRoutine i FromDynamicInput w
               = Some (setPc i g (Holding (Dynamic u))
                         (setDynChans (<[dynamicInput g := rest]> (dynChans w)) w))).
  { unfold transformRoutine. rewrite Hg, Hpc, Hq. reflexivity. }
  rewrite H1. cbn [mbind option_bind].
  set (w1 := setPc i g (Holding (Dynamic u)) _).
  assert (H2 : transformRoutine i FromDynamicInput w1 = Some (setPc i g (AtSend n) w1)).
  { unfold transformRoutine. subst w1. rewrite transformRoutine_after_setPc by exact Hi.
    cbn [pc]. rewrite Ht. reflexivity. }
  rewrite H2. cbn [mbind option_bind].
  unfold transformRoutine. rewrite transformRoutine_after_setPc
    by (subst w1; cbn; rewrite length_insert; exact Hi).
  cbn [pc output]. subst w1. cbn [nodeChans setPc setRoutines setDynChans].
  rewrite Hout. f_equal. unfold setPc, setNodeChans, setRoutines. cbn.
  f_equal. rewrite !list_insert_insert_eq. apply list_insert_id.
  rewrite Hg. f_equal. destruct g; cbn in *. by subst.
Qed.

End Iteration.

(** *** The pool right after [Start] *)

Section Started.
Context `{E : Extractors} (t : Transformer).

Lemma Start_world (numRoutines : Z) (w : World) :
  (1 <= numRoutines)%Z ->
  (Start t numRoutines w).2
  = setRoutines
      (routines w
       ++ repeat (mkRoutine (Input t) (DynamicInput t) (Output t) AtEntry)
                 (Z.to_nat numRoutines))
      (writeLog (Info "Transformer started") w).
Proof.
  intros Hn. unfold Start.
  destruct (Z.ltb_spec numRoutines 1) as [Hlt|_]; [lia|]. cbn [snd].
  rewrite startLoop_spawns by lia.
  replace (numRoutines - 0)%Z with numRoutines by lia. reflexivity.
Qed.

Lemma fresh_routines_bound (k : nat) :
  Forall (boundTo t) (repeat (mkRoutine (Input t) (DynamicInput t) (Output t) AtEntry) k).
Proof. induction k; constructor; [by repeat split | assumption]. Qed.

Lemma fresh_routines_live (i d o : chan) (k : nat) :
  sum_list_with (fun g => if isLive (pc g) then 1 else 0)
    (repeat (mkRoutine i d o AtEntry) k) = k.
Proof. induction k as [|k IH]; [reflexivity|]. cbn. by rewrite IH. Qed.

Lemma fresh_routines_weight (i d o : chan) (k : nat) :
  sum_list_with (weight ∘ pc) (repeat (mkRoutine i d o AtEntry) k) = k.
Proof. induction k as [|k IH]; [reflexivity|]. cbn. by rewrite IH. Qed.

Lemma fresh_routines_inFlight (i d o : chan) (k : nat) :
  repeat (mkRoutine i d o AtEntry) k ≫= (fun g => inFlight (pc g)) = [].
Proof. induction k as [|k IH]; [reflexivity|]. csimpl. exact IH. Qed.

Lemma nodesOf_items (ins : list Object) (dyns : list Unstructured) :
  omap (fun r => nodeOf (transform (Typed r))) ins
  ++ omap (fun u => nodeOf (transform (Dynamic u))) dyns
  = nodesOf ((Typed <$> ins) ++ (Dynamic <$> dyns)).
Proof.
  unfold nodesOf. rewrite omap_app. f_equal.
  - induction ins as [|r ins IH]; [reflexivity|].
    cbn in *. destruct (nodeOf (transformTyped r)); [f_equal|]; exact IH.
  - induction dyns as [|u dyns IH]; [reflexivity|].
    cbn in *. destruct (nodeOf (transformUnstructured u)); [f_equal|]; exact IH.
Qed.

Lemma nodesOf_length (resources : list Item) :
  Forall (fun resource => isDone (transform resource) = true) resources ->
  length (nodesOf resources) = length resources.
Proof.
  unfold nodesOf. induction 1 as [|it l Hit _ IH]; [reflexivity|].
  csimpl. destruct (transform it); [|discriminate]. cbn. by rewrite IH.
Qed.

Lemma nodesOf_UID (resources : list Item) :
  Forall (fun resource => isDone (transform resource) = true) resources ->
  Forall (fun resource => forall n, transform resource = Done n -> UID n = itemUID resource)
         resources ->
  UID <$> nodesOf resources = itemUID <$> resources.
Proof.
  unfold nodesOf. intros Hdone Huid.
  induction resources as [|it l IH]; [reflexivity|].
  apply Forall_cons in Hdone as [Hit Hdone]. apply Forall_cons in Huid as [Hu Huid].
  csimpl. destruct (transform it) as [n|v]; [|discriminate]. csimpl.
  rewrite (Hu n eq_refl), IH by assumption. reflexivity.
Qed.

(** The world [Start] leaves behind when it is called on a world without
    goroutines whose channels hold [ins] and [dyns]. *)
Lemma started_facts (numRoutines : Z) (w0 : World)
    (ins : list Object) (dyns : list Unstructured) :
  routines w0 = [] ->
  objChans w0 !! Input t = Some ins ->
  dynChans w0 !! DynamicInput t = Some dyns ->
  nodeChans w0 !! Output t = Some [] ->
  (1 <= numRoutines)%Z ->
  poolOf t (Start t numRoutines w0).2
  /\ liveCount (Start t numRoutines w0).2 = Z.to_nat numRoutines
  /\ measure t (Start t numRoutines w0).2
     = 4 * (length ins + length dyns) + Z.to_nat numRoutines
  /\ ledger t (Start t numRoutines w0).2
     = nodesOf ((Typed <$> ins) ++ (Dynamic <$> dyns)).
Proof.
  intros Hrs Hin Hdyn Hout Hn.
  rewrite Start_world by exact Hn. rewrite Hrs. cbn [app].
  unfold poolOf, liveCount, measure, backlog, ledger, queued. cbn.
  rewrite (chanOf_Some _ _ _ Hin), (chanOf_Some _ _ _ Hdyn), (chanOf_Some _ _ _ Hout).
  rewrite fresh_routines_live, fresh_routines_weight, fresh_routines_inFlight.
  split; [split; [apply fresh_routines_bound | by rewrite Hout]|].
  split; [reflexivity|]. split; [reflexivity|].
  cbn. apply nodesOf_items.
Qed.

End Started.

(** *** From the extraction functions to the type switch *)

Section Extraction.
Context `{E : Extractors}.

(** The type switch hands a resource to an extraction function that keeps
    its UID, when they all do. *)
Lemma transform_keeps_UID (resource : Item) (n : Node) :
  extractorsKeepUID ->
  transform resource = Done n ->
  UID n = itemUID resource.
Proof.
  intros (Hcommon & Hreg & Hdyn) Ht.
  destruct resource as [r|u]; cbn in Ht |- *; [|by apply Hdyn].
  cbn in Hreg. rewrite !Forall_cons in Hreg.
  destruct Hreg as (H1 & H2 & H3 & H4 & H5 & H6 & H7 & H8 & H9 & H10 & H11 & H12
                    & H13 & _).
  unfold transformTyped in Ht.
  destruct (concreteType r); eauto.
Qed.

(** The type switch returns on a resource when the extraction function in
    charge of its kind does. *)
Lemma transformTyped_returns (r : Object) :
  returnsOn r -> isDone (transformTyped r) = true.
Proof.
  intros [Hreg Hother]. unfold transformTyped.
  destruct (concreteType r) eqn:Hty;
    try (eapply Hreg; [|reflexivity]; apply list_elem_of_In; cbn; tauto).
  apply Hother. intros Hin. apply list_elem_of_In in Hin. cbn in Hin.
  intuition discriminate.
Qed.

Lemma transform_returns (ins : list Object) (dyns : list Unstructured) :
  extractorsReturn ins dyns ->
  Forall (fun resource => isDone (transform resource) = true)
         ((Typed <$> ins) ++ (Dynamic <$> dyns)).
Proof.
  intros [Hins Hdyns]. apply Forall_app. split; apply Forall_fmap.
  - eapply Forall_impl; [exact Hins|]. intros r Hr. by apply transformTyped_returns.
  - exact Hdyns.
Qed.

Lemma submseteq_keeps_NoDup {A} (k l : list A) : k ⊆+ l -> NoDup l -> NoDup k.
Proof.
  intros Hsub Hl. apply submseteq_Permutation in Hsub as [rest Hperm].
  rewrite Hperm in Hl. by apply NoDup_app in Hl as [Hk _].
Qed.

End Extraction.

Lemma layers_keep_UID (fields : list (string * Value)) (node : Node) :
  UID (foldl (fun node kv => setProperty node kv.1 kv.2) node fields) = UID node.
Proof.
  revert node. induction fields as [|kv fields IH]; intros node; [reflexivity|].
  cbn. by rewrite IH.
Qed.

(** The extraction functions of the spec keep the UID and always return. *)
Lemma spec_extractors_keep_UID (specific : GoType -> Object -> list (string * Value)) :
  extractorsKeepUID (E := specExtractors specific).
Proof.
  assert (Hd : forall fields, keepsUID (Spec.dedicated fields)).
  { intros fields r n [= <-]. apply layers_keep_UID. }
  split; [|split].
  - by intros r n [= <-].
  - cbn. repeat constructor; apply Hd.
  - by intros u n [= <-].
Qed.

Lemma spec_extractors_return (specific : GoType -> Object -> list (string * Value))
    (ins : list Object) (dyns : list Unstructured) :
  extractorsReturn (E := specExtractors specific) ins dyns.
Proof.
  split; apply Forall_forall.
  - intros r _. split.
    + intros ty f Hin _. unfold registry in Hin. cbn in Hin.
      repeat (apply elem_of_cons in Hin as [Hin|Hin]; [by injection Hin as -> ->|]).
      by apply elem_of_nil in Hin.
    + reflexivity.
  - reflexivity.
Qed.

(** C1: from the [select], one turn of a worker's loop takes exactly the
    head of exactly one intake channel ([Input] or [DynamicInput],
    whichever the [select] picks when both are ready) and appends exactly
    one node to [Output] before the worker waits again.  Hence, when no
    extraction function panics on the N queued resources, these have
    distinct UIDs and the extraction functions key a node by the UID of its
    resource, a pool of at least one worker whose sends on [Output] are
    received takes a bounded number of steps on every schedule and comes to
    rest; at any time the nodes on [Output] have distinct UIDs, each the UID
    of an input; and at rest the intake channels are empty and [Output]
    holds exactly N nodes whose UIDs are those of the N inputs, each
    once. *)
Theorem pool_delivers_each_resource_once `{E : Extractors} (t : Transformer)
    (numRoutines : Z) (w0 : World) (ins : list Object) (dyns : list Unstructured) :
  routines w0 = [] ->
  objChans w0 !! Input t = Some ins ->
  dynChans w0 !! DynamicInput t = Some dyns ->
  nodeChans w0 !! Output t = Some [] ->
  (1 <= numRoutines)%Z ->
  extractorsReturn ins dyns ->
  extractorsKeepUID ->
  NoDup (itemUID <$> ((Typed <$> ins) ++ (Dynamic <$> dyns))) ->
  let resources := (Typed <$> ins) ++ (Dynamic <$> dyns) in
  let started := (Start t numRoutines w0).2 in
  (forall w i g sent,
      routines w !! i = Some g ->
      pc g = AtSelect ->
      nodeChans w !! output g = Some sent ->
      (forall r rest n,
          objChans w !! input g = Some (r :: rest) ->
          transform (Typed r) = Done n ->
          iteration i FromInput w
          = Some {| objChans := <[input g := rest]> (objChans w);
                    dynChans := dynChans w;
                    nodeChans := <[output g := sent ++ [n]]> (nodeChans w);
                    routines := routines w;
                    glog := glog w |})
      /\ (forall u rest n,
             dynChans w !! dynamicInput g = Some (u :: rest) ->
             transform (Dynamic u) = Done n ->
             iteration i FromDynamicInput w
             = Some {| objChans := objChans w;
                       dynChans := <[dynamicInput g := rest]> (dynChans w);
                       nodeChans := <[output g := sent ++ [n]]> (nodeChans w);
                       routines := routines w;
                       glog := glog w |})
      /\ (forall r rest u rest',
             objChans w !! input g = Some (r :: rest) ->
             dynChans w !! dynamicInput g = Some (u :: rest') ->
             is_Some (transformRoutine i FromInput w)
             /\ is_Some (transformRoutine i FromDynamicInput w)))
  /\ (forall k w, steps k started w ->
        k <= 4 * length resources + Z.to_nat numRoutines)
  /\ (exists k w, steps k started w /\ forall w', ~ step w w')
  /\ (forall w, reachable started w ->
        chanOf (nodeChans w) (Output t) ⊆+ nodesOf resources
        /\ UID <$> chanOf (nodeChans w) (Output t) ⊆+ itemUID <$> resources
        /\ NoDup (UID <$> chanOf (nodeChans w) (Output t)))
  /\ (forall w,
        reachable started w ->
        (forall w', ~ step w w') ->
        chanOf (objChans w) (Input t) = []
        /\ chanOf (dynChans w) (DynamicInput t) = []
        /\ exists out,
             nodeChans w !! Output t = Some out
             /\ out ≡ₚ nodesOf resources
             /\ length out = length ins + length dyns
             /\ UID <$> out ≡ₚ itemUID <$> resources
             /\ NoDup (UID <$> out)).
Proof.
  intros Hrs Hin Hdyn Hout Hn Hreturn Hkeep Hdistinct resources started.
  pose proof (transform_returns ins dyns Hreturn) as Hdone.
  fold resources in Hdone, Hdistinct.
  assert (Huid : Forall (fun resource =>
                           forall n, transform resource = Done n ->
                                     UID n = itemUID resource) resources).
  { apply Forall_forall. intros resource _ n Ht. by apply transform_keeps_UID. }
  assert (Huids : UID <$> nodesOf resources = itemUID <$> resources)
    by (by apply nodesOf_UID).
  destruct (started_facts t numRoutines w0 ins dyns Hrs Hin Hdyn Hout Hn)
    as (Hpool & Hlive & Hmeasure & Hledger).
  fold started in Hpool, Hlive, Hmeasure, Hledger.
  fold resources in Hledger.
  assert (Hlen : length resources = length ins + length dyns).
  { subst resources. by rewrite length_app, !length_fmap. }
  assert (Hsub : forall w, reachable started w ->
                           chanOf (nodeChans w) (Output t) ⊆+ nodesOf resources).
  { intros w [k Hsteps].
    destruct (steps_invariants t k started w Hpool Hsteps) as (_ & _ & Hl & _).
    rewrite <- Hledger, <- Hl. unfold ledger.
    apply submseteq_inserts_r. reflexivity. }
  split; [|split; [|split; [|split]]].
  - intros w i g sent Hg Hpc Hsent. split; [|split].
    + intros r rest n Hq Ht. by eapply iteration_input.
    + intros u rest n Hq Ht. by eapply iteration_dynamicInput.
    + intros r rest u rest' Hq Hq'. unfold transformRoutine.
      rewrite Hg, Hpc, Hq, Hq'. split; eexists; reflexivity.
  - intros k w Hsteps.
    destruct (steps_invariants t k started w Hpool Hsteps) as (_ & Hm & _).
    lia.
  - destruct (runFor_quiescent t (measure t started) started Hpool) as (k & Hk & Hq);
      [lia|].
    exists k, (runFor (measure t started) started).
    split; [exact Hk | by apply pick_None].
  - intros w Hreach.
    assert (Hsubu : UID <$> chanOf (nodeChans w) (Output t) ⊆+ itemUID <$> resources).
    { rewrite <- Huids. apply fmap_submseteq. by apply Hsub. }
    split; [by apply Hsub|]. split; [exact Hsubu|].
    eapply submseteq_keeps_NoDup; eassumption.
  - intros w [k Hsteps] Hstuck.
    destruct (steps_invariants t k started w Hpool Hsteps) as (Hp & _ & Hl & Hc).
    apply pick_None in Hstuck.
    destruct (quiescent_ledger t w Hp) as (Hobj & Hdy & _ & Hall); [lia | exact Hstuck |].
    split; [exact Hobj|]. split; [exact Hdy|].
    destruct Hp as [_ [out Hopen]]. exists out.
    rewrite (chanOf_Some _ _ _ Hopen) in Hall.
    assert (Hperm : out ≡ₚ nodesOf resources) by (by rewrite <- Hall, Hl, Hledger).
    split; [exact Hopen|]. split; [exact Hperm|].
    split; [rewrite Hperm, <- Hlen; by apply nodesOf_length|].
    assert (Hpermu : UID <$> out ≡ₚ itemUID <$> resources)
      by (by rewrite Hperm, Huids).
    split; [exact Hpermu | by rewrite Hpermu].
Qed.

Lemma pool_delivers_each_resource_once_witness :
  extractorsReturn (E := specExtractors noSpecific)
    [samplePod; sampleDeployment; sampleEndpoints] [sampleUnstructured]
  /\ extractorsKeepUID (E := specExtractors noSpecific)
  /\ NoDup ["uid-pod"; "uid-deployment"; "uid-endpoints"; "uid-application"]
  /\ exists out,
       nodeChans (runFor (E := specExtractors noSpecific) 18
                    (Start sampleTransformer 2 sampleWorld).2) !! 3%positive
       = Some out
       /\ length out = 4
       /\ UID <$> out
          ≡ₚ ["uid-pod"; "uid-deployment"; "uid-endpoints"; "uid-application"]
       /\ NoDup (UID <$> out).
Proof.
  pose proof (spec_extractors_return noSpecific
                [samplePod; sampleDeployment; sampleEndpoints] [sampleUnstructured])
    as Hreturn.
  pose proof (spec_extractors_keep_UID noSpecific) as Hkeep.
  assert (Hdistinct : NoDup ["uid-pod"; "uid-deployment"; "uid-endpoints";
                             "uid-application"]).
  { apply NoDup_ListNoDup. repeat constructor; cbn; intuition discriminate. }
  assert (Hn : (1 <= 2)%Z) by (vm_compute; discriminate).
  split; [exact Hreturn|]. split; [exact Hkeep|]. split; [exact Hdistinct|].
  destruct (pool_delivers_each_resource_once (E := specExtractors noSpecific)
              sampleTransformer 2 sampleWorld
              [samplePod; sampleDeployment; sampleEndpoints] [sampleUnstructured]
              eq_refl eq_refl eq_refl eq_refl Hn Hreturn Hkeep Hdistinct)
    as (_ & _ & _ & _ & Hrest).
  assert (Hpool : poolOf sampleTransformer (Start sampleTransformer 2 sampleWorld).2).
  { split; [repeat constructor | eexists; reflexivity]. }
  destruct (runFor_quiescent (E := specExtractors noSpecific) sampleTransformer 18
              (Start sampleTransformer 2 sampleWorld).2 Hpool)
    as (k & Hsteps & Hquiet); [vm_compute; lia|].
  destruct (Hrest _ (ex_intro _ k Hsteps) (proj1 (pick_None _) Hquiet))
    as (_ & _ & out & Hout & _ & Hlen & Huids & Hnodup).
  exists out. split; [exact Hout|]. split; [exact Hlen|].
  split; [exact Huids | exact Hnodup].
Defined.

(** The scheduler on the sample world: after 14 steps nothing can move and
    the output holds one node per resource. *)
Example sample_run_output :
  let final := runFor (E := specExtractors noSpecific) 18
                 (Start sampleTransformer 2 sampleWorld).2 in
  UID <$> chanOf (nodeChans final) 3%positive
  = ["uid-pod"; "uid-deployment"; "uid-endpoints"; "uid-application"]
  /\ chanOf (objChans final) 1%positive = []
  /\ chanOf (dynChans final) 2%positive = []
  /\ pick (E := specExtractors noSpecific) final = None.
Proof. vm_compute. repeat split; reflexivity. Qed.

(** *** Dispatch *)

(** C3: a resource read from [Input] whose concrete type is one of the
    thirteen registered ones goes to the extraction function registered for
    that type, every other one goes to [transformCommon], and a resource
    read from [DynamicInput] goes to [transformUnstructured]; a worker that
    holds a resource always moves on, and the node its extraction function
    returns is the one the worker sends, registered type or not. *)
Theorem dispatch_by_concrete_type `{E : Extractors} :
  registry.*1
  = [ core_ConfigMap; batchBeta_CronJob; apps_DaemonSet; apps_Deployment; batch_Job;
      core_Namespace; core_Node; core_PersistentVolume; core_Pod; apps_ReplicaSet;
      core_Secret; core_Service; apps_StatefulSet ]
  /\ length registry = 13
  /\ NoDup registry.*1
  /\ (forall r ty f,
        (ty, f) ∈ registry -> concreteType r = ty -> transform (Typed r) = f r)
  /\ (forall r,
        concreteType r ∉ registry.*1 -> transform (Typed r) = transformCommon r)
  /\ (forall u, transform (Dynamic u) = transformUnstructured u)
  /\ (forall i g w b resource,
        routines w !! i = Some g ->
        pc g = Holding resource ->
        transformRoutine i b w
        = Some (setPc i g match transform resource with
                          | Done n => AtSend n
                          | Panicked r => Panicking r
                          end w))
  /\ (forall i g w r rest sent n,
        routines w !! i = Some g ->
        pc g = AtSelect ->
        objChans w !! input g = Some (r :: rest) ->
        nodeChans w !! output g = Some sent ->
        concreteType r ∉ registry.*1 ->
        transformCommon r = Done n ->
        exists w',
          iteration i FromInput w = Some w'
          /\ nodeChans w' !! output g = Some (sent ++ [n])).
Proof.
  split; [reflexivity|]. split; [reflexivity|].
  split; [cbn; apply NoDup_ListNoDup; repeat constructor; cbn; intuition discriminate|].
  assert (Hother : forall r, concreteType r ∉ registry.*1 ->
                             transform (Typed r) = transformCommon r).
  { intros r Hnot. cbn. unfold transformTyped.
    destruct (concreteType r); try reflexivity;
      exfalso; apply Hnot; apply list_elem_of_In; cbn; tauto. }
  split; [|split; [exact Hother|split; [reflexivity|split]]].
  - intros r ty f Hin Hty. cbn. unfold transformTyped. rewrite Hty.
    unfold registry in Hin.
    repeat (apply elem_of_cons in Hin as [Hin|Hin];
            [injection Hin as -> ->; reflexivity|]).
    by apply elem_of_nil in Hin.
  - intros i g w b resource Hg Hpc. unfold transformRoutine. rewrite Hg, Hpc.
    destruct (transform resource); reflexivity.
  - intros i g w r rest sent n Hg Hpc Hq Hsent Hnot Hn.
    eexists. split.
    + eapply iteration_input; try eassumption. by rewrite Hother.
    + cbn. apply lookup_insert_eq.
Qed.

Lemma dispatch_by_concrete_type_witness :
  transform (E := specExtractors noSpecific) (Typed sampleEndpoints)
  = Spec.transformCommon sampleEndpoints
  /\ transform (E := specExtractors noSpecific) (Typed samplePod)
     = Spec.dedicated (noSpecific core_Pod) samplePod.
Proof.
  destruct (dispatch_by_concrete_type (E := specExtractors noSpecific))
    as (_ & _ & _ & Hreg & Hother & _).
  split.
  - apply Hother. cbn. intros Hin. apply list_elem_of_In in Hin. cbn in Hin.
    intuition discriminate.
  - apply (Hreg samplePod core_Pod); [|reflexivity].
    apply list_elem_of_In. cbn. tauto.
Defined.

(** *** Panics *)

Section Panics.
Context `{E : Extractors}.

(** No step adds to an intake channel. *)
Lemma routineStep_intake (t : Transformer) (i : nat) (g : Routine) (b : Branch) (w w' : World) :
  routineStep i g w b w' ->
  chanOf (objChans w') (Input t) `suffix_of` chanOf (objChans w) (Input t)
  /\ chanOf (dynChans w') (DynamicInput t) `suffix_of` chanOf (dynChans w) (DynamicInput t).
Proof.
  intros Hf.
  destruct Hf as [b Hpc|r rest Hpc Hq|r rest Hpc Hq|b it n Hpc Ht|b it v Hpc Ht
                 |b n sent Hpc Hq|b v Hpc]; cbn; try (split; reflexivity).
  - split; [|reflexivity]. unfold chanOf. rewrite lookup_insert.
    case_decide as Heq; [|reflexivity]. rewrite <- Heq, Hq. cbn.
    by apply suffix_cons_r.
  - split; [reflexivity|]. unfold chanOf. rewrite lookup_insert.
    case_decide as Heq; [|reflexivity]. rewrite <- Heq, Hq. cbn.
    by apply suffix_cons_r.
Qed.

Lemma steps_intake (t : Transformer) (k : nat) (w w' : World) :
  steps k w w' ->
  chanOf (objChans w') (Input t) `suffix_of` chanOf (objChans w) (Input t)
  /\ chanOf (dynChans w') (DynamicInput t) `suffix_of` chanOf (dynChans w) (DynamicInput t).
Proof.
  induction 1 as [w|k w w1 w2 (i & b & Hfire) _ [IH1 IH2]]; [split; reflexivity|].
  apply transformRoutine_routineStep in Hfire as (g & _ & Hf).
  destruct (routineStep_intake t _ _ _ _ _ Hf) as [H1 H2].
  split; etrans; eassumption.
Qed.

(** A goroutine with nothing to send can be left out of the ledger. *)
Lemma bind_delete_nil {A B} (f : A -> list B) (l : list A) (i : nat) (x : A) :
  l !! i = Some x -> f x = [] -> l ≫= f = delete i l ≫= f.
Proof.
  revert i. induction l as [|a l IH]; intros [|i] Hi Hx; try discriminate.
  - injection Hi as ->. csimpl. by rewrite Hx.
  - csimpl. f_equal. by apply IH.
Qed.

End Panics.

(** C4: when a worker unwinds from a panic, [handleRoutineExit] logs the
    fault and starts exactly one goroutine on the same three channels; when
    [recover] returns nil it does nothing.  In the pool, a panic of the
    transformation takes the worker to that handler, the step of the handler
    leaves the worker exited and appends its one replacement, so the number
    of live workers stays the same, and no other step starts a goroutine. *)
Theorem handleRoutineExit_respawns `{E : Extractors} :
  (forall r i d o w,
      handleRoutineExit (Some r) i d o w
      = {| objChans := objChans w; dynChans := dynChans w; nodeChans := nodeChans w;
           routines := routines w ++ [mkRoutine i d o AtEntry];
           glog := glog w
                   ++ [Error ("Error in transformer routine: " +:+ r +:+ newline)] |})
  /\ (forall i d o w, handleRoutineExit None i d o w = w)
  /\ (forall i g w b resource r,
        routines w !! i = Some g ->
        pc g = Holding resource ->
        transform resource = Panicked r ->
        transformRoutine i b w = Some (setPc i g (Panicking r) w))
  /\ (forall i g w b r,
        routines w !! i = Some g ->
        pc g = Panicking r ->
        exists w',
          transformRoutine i b w = Some w'
          /\ routines w'
             = <[i := mkRoutine (input g) (dynamicInput g) (output g) Exited]> (routines w)
               ++ [mkRoutine (input g) (dynamicInput g) (output g) AtEntry]
          /\ glog w'
             = glog w ++ [Error ("Error in transformer routine: " +:+ r +:+ newline)]
          /\ objChans w' = objChans w
          /\ dynChans w' = dynChans w
          /\ nodeChans w' = nodeChans w
          /\ liveCount w' = liveCount w)
  /\ (forall i g w b w',
        routines w !! i = Some g ->
        transformRoutine i b w = Some w' ->
        (forall r, pc g <> Panicking r) ->
        length (routines w') = length (routines w)).
Proof.
  split; [reflexivity|]. split; [reflexivity|]. split; [|split].
  - intros i g w b resource r Hg Hpc Ht. unfold transformRoutine. by rewrite Hg, Hpc, Ht.
  - intros i g w b r Hg Hpc.
    assert (Hfire : transformRoutine i b w
                    = Some (handleRoutineExit (Some r) (input g) (dynamicInput g)
                              (output g) (setPc i g Exited w)))
      by (unfold transformRoutine; by rewrite Hg, Hpc).
    eexists. split; [exact Hfire|].
    repeat split; try reflexivity.
    apply transformRoutine_routineStep in Hfire as (g' & Hg' & Hf).
    by eapply routineStep_liveCount.
  - intros i g w b w' Hg Hfire Hnot.
    apply transformRoutine_routineStep in Hfire as (g' & Hg' & Hf).
    assert (g' = g) by congruence. subst g'.
    destruct Hf; cbn; try apply length_insert.
    exfalso. by eapply Hnot.
Qed.

Lemma handleRoutineExit_respawns_witness :
  exists w',
    transformRoutine (E := faultyExtractors) 0 FromInput
      (setPc 0 (mkRoutine 1%positive 2%positive 3%positive AtSelect)
         (Panicking "index out of range") holdingWorld)
    = Some w'
    /\ routines w'
       = [ mkRoutine 1%positive 2%positive 3%positive Exited;
           mkRoutine 1%positive 2%positive 3%positive AtSelect;
           mkRoutine 1%positive 2%positive 3%positive AtEntry ]
    /\ liveCount w' = 2.
Proof.
  destruct (handleRoutineExit_respawns (E := faultyExtractors))
    as (_ & _ & _ & Hexit & _).
  destruct (Hexit 0 (mkRoutine 1%positive 2%positive 3%positive
                       (Panicking "index out of range"))
              (setPc 0 (mkRoutine 1%positive 2%positive 3%positive AtSelect)
                 (Panicking "index out of range") holdingWorld)
              FromInput "index out of range" eq_refl eq_refl)
    as (w' & Hfire & Hrs & _ & _ & _ & _ & Hlive).
  exists w'. split; [exact Hfire|]. split; [exact Hrs | exact Hlive].
Defined.

Section Lost.
Context `{E : Extractors}.

Lemma routineStep_keeps_exited (i j : nat) (g gj : Routine) (b : Branch) (w w' : World) :
  routines w !! i = Some g ->
  routineStep i g w b w' ->
  routines w !! j = Some gj ->
  pc gj = Exited ->
  routines w' !! j = Some gj.
Proof.
  intros Hg Hf Hj Hx.
  assert (Hne : i <> j).
  { intros ->. assert (g = gj) by congruence. subst gj.
    destruct Hf; congruence. }
  destruct Hf; cbn; try (by rewrite list_lookup_insert_ne).
  rewrite lookup_app_l.
  - by rewrite list_lookup_insert_ne.
  - rewrite length_insert. by eapply lookup_lt_Some.
Qed.

Lemma steps_keep_exited (k j : nat) (gj : Routine) (w w' : World) :
  steps k w w' ->
  routines w !! j = Some gj ->
  pc gj = Exited ->
  routines w' !! j = Some gj.
Proof.
  induction 1 as [w|k w w1 w2 (i & b & Hfire) _ IH]; intros Hj Hx; [exact Hj|].
  apply transformRoutine_routineStep in Hfire as (g & Hg & Hf).
  apply IH; [|exact Hx].
  exact (routineStep_keeps_exited i j g gj b w w1 Hg Hf Hj Hx).
Qed.

Lemma live_routine_counts (w : World) (i : nat) (g : Routine) :
  routines w !! i = Some g -> isLive (pc g) = true -> 1 <= liveCount w.
Proof.
  intros Hg Hlive. unfold liveCount.
  pose proof (sum_list_with_in g (fun g => if isLive (pc g) then 1 else 0) (routines w))
    as Hle.
  cbn in Hle. rewrite Hlive in Hle. apply Hle.
  eapply list_elem_of_lookup_2, Hg.
Qed.

End Lost.

(** C5: when the transformation of the resource a worker holds panics, the
    worker unwinds and exits without sending anything.  Its two steps leave
    the three channels as they were; the resource had left its intake
    channel with the receive, no later step puts anything into an intake
    channel, and the worker stays exited.  Whatever the pool does from
    there, the output channel only ever holds nodes that were already
    there, or that other workers carry, or that come from the resources
    still queued, each at most once; and once the pool is at rest it holds
    all of these. *)
Theorem panic_loses_only_the_resource_in_flight `{E : Extractors} (t : Transformer)
    (w : World) (i : nat) (g : Routine) (resource : Item) (r : PanicValue) :
  poolOf t w ->
  routines w !! i = Some g ->
  pc g = Holding resource ->
  transform resource = Panicked r ->
  let others := chanOf (nodeChans w) (Output t)
                ++ (delete i (routines w) ≫= (fun g => inFlight (pc g)))
                ++ queued t w in
  (exists w1 w2,
      (forall b, transformRoutine i b w = Some w1)
      /\ (forall b, transformRoutine i b w1 = Some w2)
      /\ objChans w2 = objChans w
      /\ dynChans w2 = dynChans w
      /\ nodeChans w2 = nodeChans w
      /\ routines w2 !! i
         = Some (mkRoutine (input g) (dynamicInput g) (output g) Exited)
      /\ forall w', reachable w2 w' ->
           routines w' !! i
           = Some (mkRoutine (input g) (dynamicInput g) (output g) Exited))
  /\ (forall w', reachable w w' ->
        chanOf (objChans w') (Input t) `suffix_of` chanOf (objChans w) (Input t)
        /\ chanOf (dynChans w') (DynamicInput t)
             `suffix_of` chanOf (dynChans w) (DynamicInput t)
        /\ chanOf (nodeChans w') (Output t) ⊆+ others)
  /\ (forall w', reachable w w' -> (forall w'', ~ step w' w'') ->
        chanOf (nodeChans w') (Output t) ≡ₚ others).
Proof.
  intros Hpool Hg Hpc Ht others.
  assert (Hi : i < length (routines w)) by (eapply lookup_lt_Some; eassumption).
  assert (Hledger : ledger t w = others).
  { unfold ledger, others. f_equal. f_equal.
    eapply bind_delete_nil; [exact Hg|]. cbn. rewrite Hpc. cbn. by rewrite Ht. }
  split; [|split].
  - exists (setPc i g (Panicking r) w).
    exists (handleRoutineExit (Some r) (input g) (dynamicInput g) (output g)
              (setPc i g Exited (setPc i g (Panicking r) w))).
    assert (Hexited :
              routines (handleRoutineExit (Some r) (input g) (dynamicInput g) (output g)
                          (setPc i g Exited (setPc i g (Panicking r) w))) !! i
              = Some (mkRoutine (input g) (dynamicInput g) (output g) Exited)).
    { cbn. rewrite lookup_app_l by (by rewrite !length_insert).
      apply list_lookup_insert_eq. by rewrite length_insert. }
    split; [|split; [|repeat split; try reflexivity]].
    + intros b. unfold transformRoutine. by rewrite Hg, Hpc, Ht.
    + intros b. unfold transformRoutine. rewrite transformRoutine_after_setPc by exact Hi. reflexivity.
    + exact Hexited.
    + intros w' [k Hsteps]. eapply steps_keep_exited; [exact Hsteps|exact Hexited|].
      reflexivity.
  - intros w' [k Hsteps].
    destruct (steps_intake t k w w' Hsteps) as [Hobj Hdyn].
    destruct (steps_invariants t k w w' Hpool Hsteps) as (_ & _ & Hl & _).
    split; [exact Hobj|]. split; [exact Hdyn|].
    rewrite <- Hledger, <- Hl. unfold ledger. apply submseteq_inserts_r. reflexivity.
  - intros w' [k Hsteps] Hstuck.
    destruct (steps_invariants t k w w' Hpool Hsteps) as (Hp & _ & Hl & Hc).
    apply pick_None in Hstuck.
    destruct (quiescent_ledger t w' Hp) as (_ & _ & _ & Hall); [|exact Hstuck|].
    + rewrite Hc. eapply live_routine_counts; [exact Hg|]. by rewrite Hpc.
    + by rewrite <- Hall, Hl, Hledger.
Qed.

Lemma panic_loses_only_the_resource_in_flight_witness :
  poolOf sampleTransformer holdingWorld
  /\ transform (E := faultyExtractors) (Typed sampleDeployment)
     = Panicked "index out of range"
  /\ forall w',
       reachable (E := faultyExtractors) holdingWorld w' ->
       (forall w'', ~ step (E := faultyExtractors) w' w'') ->
       chanOf (nodeChans w') 3%positive
       ≡ₚ [ Spec.common (typeMeta samplePod) (objectMeta samplePod);
            Spec.common (typeMeta sampleEndpoints) (objectMeta sampleEndpoints);
            Spec.common (uTypeMeta sampleUnstructured) (uObjectMeta sampleUnstructured) ].
Proof.
  assert (Hpool : poolOf sampleTransformer holdingWorld).
  { split; [repeat constructor | eexists; reflexivity]. }
  split; [exact Hpool|]. split; [reflexivity|].
  destruct (panic_loses_only_the_resource_in_flight (E := faultyExtractors)
              sampleTransformer holdingWorld 0
              (mkRoutine 1%positive 2%positive 3%positive
                 (Holding (Typed sampleDeployment)))
              (Typed sampleDeployment) "index out of range"
              Hpool eq_refl eq_refl eq_refl)
    as (_ & _ & Hrest).
  exact Hrest.
Defined.

(** The scheduler on the sample world when the extraction of deployments
    panics: the deployment is the one resource without a node, the fault is
    in the log, and two workers are alive at the end. *)
Example sample_run_with_panic :
  let final := runFor (E := faultyExtractors) 18
                 (Start sampleTransformer 2 sampleWorld).2 in
  UID <$> chanOf (nodeChans final) 3%positive
  = ["uid-pod"; "uid-endpoints"; "uid-application"]
  /\ chanOf (objChans final) 1%positive = []
  /\ chanOf (dynChans final) 2%positive = []
  /\ liveCount final = 2
  /\ Error ("Error in transformer routine: index out of range" +:+ newline) ∈ glog final
  /\ pick (E := faultyExtractors) final = None.
Proof.
  vm_compute. repeat split; try reflexivity.
  apply list_elem_of_In. cbn. tauto.
Qed.

(** *** The common baseline, for the extraction functions of the spec *)

Lemma hasBaseline_setProperty (node : Node) (k : string) (v : Value) :
  hasBaseline node -> hasBaseline (setProperty node k v).
Proof.
  intros (Hk & Hg & Hv). unfold hasBaseline, setProperty. cbn.
  rewrite !lookup_insert_is_Some'. auto.
Qed.

Lemma hasBaseline_copyLabel (labels : gmap string string) (key : string) (node : Node) :
  hasBaseline node -> hasBaseline (copyLabel labels key node).
Proof.
  intros H. unfold copyLabel. destruct (labels !! key); [|exact H].
  by apply hasBaseline_setProperty.
Qed.

Lemma hasBaseline_layers (fields : list (string * Value)) (node : Node) :
  hasBaseline node ->
  hasBaseline (foldl (fun node kv => setProperty node kv.1 kv.2) node fields).
Proof.
  revert node. induction fields as [|kv fields IH]; intros node H; [exact H|].
  cbn. apply IH. by apply hasBaseline_setProperty.
Qed.

Lemma apiGroupVersion_identity (tm : metav1.TypeMeta) (node : Node) :
  Properties (Spec.apiGroupVersion tm node) !! "kind" = Some (VString (metav1.Kind tm))
  /\ Properties (Spec.apiGroupVersion tm node) !! "apiGroup"
     = Some (VString (Spec.groupOf (metav1.APIVersion tm)))
  /\ Properties (Spec.apiGroupVersion tm node) !! "version"
     = Some (VString (Spec.versionOf (metav1.APIVersion tm))).
Proof.
  unfold Spec.apiGroupVersion, setProperty. cbn.
  repeat split.
  - rewrite !lookup_insert_ne by discriminate. apply lookup_insert_eq.
  - rewrite lookup_insert_ne by discriminate. apply lookup_insert_eq.
  - apply lookup_insert_eq.
Qed.

Lemma common_hasBaseline (tm : metav1.TypeMeta) (om : metav1.ObjectMeta) :
  hasBaseline (Spec.common tm om).
Proof.
  unfold Spec.common.
  destruct (apiGroupVersion_identity tm
              {| UID := metav1.UID om;
                 Properties :=
                   <["labels" := VLabels (metav1.Labels om)]>
                     (<["namespace" := VString (metav1.Namespace om)]>
                        (<["name" := VString (metav1.Name om)]> ∅)) |})
    as (Hk & Hg & Hv).
  unfold hasBaseline. rewrite Hk, Hg, Hv. repeat split; eexists; reflexivity.
Qed.

Lemma spec_transform_hasBaseline (specific : GoType -> Object -> list (string * Value))
    (resource : Item) :
  exists n, transform (E := specExtractors specific) resource = Done n /\ hasBaseline n.
Proof.
  destruct resource as [r|u]; cbn.
  - unfold transformTyped.
    destruct (concreteType r); cbn; unfold Spec.dedicated, Spec.transformCommon;
      eexists; (split; [reflexivity|]);
      try apply hasBaseline_layers; apply common_hasBaseline.
  - eexists. split; [reflexivity|]. apply common_hasBaseline.
Qed.

(** C9, for the extraction functions as the spec describes them: whatever
    the kind of a resource and whichever path it takes (dedicated, generic
    or dynamic), its node has the identity fields kind, apiGroup and
    version, so every node the pool ever puts on the output has them; the
    Policy adapter keeps them as the common step set them and layers its
    own fields on top. *)
Theorem every_node_has_the_baseline
    (specific : GoType -> Object -> list (string * Value)) (t : Transformer)
    (numRoutines : Z) (w0 : World) (ins : list Object) (dyns : list Unstructured) :
  routines w0 = [] ->
  objChans w0 !! Input t = Some ins ->
  dynChans w0 !! DynamicInput t = Some dyns ->
  nodeChans w0 !! Output t = Some [] ->
  (1 <= numRoutines)%Z ->
  (forall resource,
      exists n, transform (E := specExtractors specific) resource = Done n
                /\ hasBaseline n)
  /\ (forall w,
        reachable (E := specExtractors specific) (Start t numRoutines w0).2 w ->
        Forall hasBaseline (chanOf (nodeChans w) (Output t)))
  /\ (forall h a pol,
        h !! a = Some pol ->
        exists node,
          BuildNode (E := specExtractors specific) (mkPolicyResource (Some a)) h
          = (Done node, h)
          /\ hasBaseline node
          /\ Properties node !! "kind"
             = Some (VString (metav1.Kind (mcm.TypeMeta pol)))
          /\ Properties node !! "apiGroup"
             = Some (VString (Spec.groupOf (metav1.APIVersion (mcm.TypeMeta pol))))
          /\ Properties node !! "version"
             = Some (VString (Spec.versionOf (metav1.APIVersion (mcm.TypeMeta pol))))
          /\ is_Some (Properties node !! "remediationAction")
          /\ is_Some (Properties node !! "compliant")
          /\ is_Some (Properties node !! "valid")
          /\ is_Some (Properties node !! "numRules")).
Proof.
  intros Hrs Hin Hdyn Hout Hn.
  split; [apply spec_transform_hasBaseline|]. split.
  - intros w [k Hsteps].
    destruct (started_facts (E := specExtractors specific) t numRoutines w0 ins dyns
                Hrs Hin Hdyn Hout Hn) as (Hpool & _ & _ & Hledger).
    destruct (steps_invariants (E := specExtractors specific) t k _ w Hpool Hsteps)
      as (_ & _ & Hl & _).
    assert (Hsub : chanOf (nodeChans w) (Output t)
                   ⊆+ nodesOf (E := specExtractors specific)
                        ((Typed <$> ins) ++ (Dynamic <$> dyns))).
    { rewrite <- Hledger, <- Hl. unfold ledger. apply submseteq_inserts_r. reflexivity. }
    apply Forall_forall. intros n Hn'.
    assert (Hin' : n ∈ nodesOf (E := specExtractors specific)
                         ((Typed <$> ins) ++ (Dynamic <$> dyns))).
    { eapply elem_of_submseteq; eassumption. }
    unfold nodesOf in Hin'. apply list_elem_of_omap in Hin' as (resource & _ & Hnode).
    destruct (spec_transform_hasBaseline specific resource) as (n' & Ht & Hb).
    rewrite Ht in Hnode. cbn in Hnode. by injection Hnode as <-.
  - intros h a pol Hpol.
    pose (base := Spec.common (mcm.TypeMeta pol) (mcm.ObjectMeta pol)).
    pose proof (BuildNode_run (E := specExtractors specific) h a pol base Hpol eq_refl)
      as Hrun.
    eexists. split; [exact Hrun|]. clear Hrun.
    change (@apiGroupVersion (specExtractors specific)) with Spec.apiGroupVersion.
    destruct (apiGroupVersion_identity (mcm.TypeMeta pol) base) as (Hk & Hg & Hv).
    set (start := Spec.apiGroupVersion (mcm.TypeMeta pol) base) in *.
    assert (Hstart : hasBaseline start).
    { unfold hasBaseline. rewrite Hk, Hg, Hv. repeat split; eexists; reflexivity. }
    split.
    { do 2 apply hasBaseline_copyLabel. do 4 apply hasBaseline_setProperty.
      exact Hstart. }
    rewrite !copyLabel_lookup.
    repeat (rewrite decide_False by discriminate).
    unfold setProperty; cbn [Properties].
    rewrite !(lookup_insert_ne _ "numRules") by discriminate.
    rewrite !(lookup_insert_ne _ "valid") by discriminate.
    rewrite !(lookup_insert_ne _ "compliant") by discriminate.
    rewrite !(lookup_insert_ne _ "remediationAction") by discriminate.
    rewrite !lookup_insert_eq.
    split; [exact Hk|]. split; [exact Hg|]. split; [exact Hv|].
    repeat split; eexists; reflexivity.
Qed.

Lemma every_node_has_the_baseline_witness :
  (forall w,
      reachable (E := specExtractors noSpecific)
        (Start sampleTransformer 2 sampleWorld).2 w ->
      Forall hasBaseline (chanOf (nodeChans w) 3%positive))
  /\ exists node,
       BuildNode (E := specExtractors noSpecific) samplePolicyResource sampleStore
       = (Done node, sampleStore)
       /\ Properties node !! "kind" = Some (VString "Policy")
       /\ Properties node !! "apiGroup" = Some (VString "policy.mcm.ibm.com")
       /\ Properties node !! "version" = Some (VString "v1alpha1").
Proof.
  assert (Hn : (1 <= 2)%Z) by (vm_compute; discriminate).
  destruct (every_node_has_the_baseline noSpecific sampleTransformer 2 sampleWorld
              [samplePod; sampleDeployment; sampleEndpoints] [sampleUnstructured]
              eq_refl eq_refl eq_refl eq_refl Hn)
    as (_ & Hall & Hpolicy).
  split; [exact Hall|].
  destruct (Hpolicy sampleStore 1%positive samplePolicy eq_refl)
    as (node & Hrun & _ & Hk & Hg & Hv & _).
  exists node. split; [exact Hrun|]. split; [exact Hk|]. split; [exact Hg | exact Hv].
Defined.

(** * Further properties of the Policy adapter *)

Lemma int64_range (z : Z) : (- 2 ^ 63 <= int64 z < 2 ^ 63)%Z.
Proof.
  unfold int64.
  pose proof (Z.mod_pos_bound (z + 2 ^ 63) (2 ^ 64) ltac:(lia)). lia.
Qed.

Lemma int64_add_l (a b : Z) : int64 (int64 a + b) = int64 (a + b).
Proof.
  unfold int64. f_equal.
  replace ((a + 2 ^ 63) mod 2 ^ 64 - 2 ^ 63 + b + 2 ^ 63)%Z
    with ((a + 2 ^ 63) mod 2 ^ 64 + b)%Z by lia.
  rewrite Zplus_mod_idemp_l. f_equal. lia.
Qed.

Lemma int64_add_r (a b : Z) : int64 (a + int64 b) = int64 (a + b).
Proof. rewrite (Z.add_comm a), int64_add_l. f_equal. lia. Qed.

Lemma int64_mod (z : Z) : (int64 z mod 2 ^ 64 = z mod 2 ^ 64)%Z.
Proof.
  unfold int64.
  rewrite Zminus_mod, Zmod_mod, <- Zminus_mod. f_equal. lia.
Qed.

(** The loop adds up the rule counts in [int64] arithmetic. *)
Lemma countRules_wraps (roleTemplates : list (option mcm.RoleTemplate)) (rules : Z) :
  countRules roleTemplates (int64 rules)
  = int64 (rules + Z.of_nat (totalRules roleTemplates)).
Proof.
  revert rules. induction roleTemplates as [|role rest IH]; intros rules.
  - cbn. f_equal. lia.
  - assert (Hcons : totalRules (role :: rest)
                     = match role with
                       | Some r => length (mcm.Rules r)
                       | None => 0
                       end + totalRules rest) by reflexivity.
    rewrite Hcons. clear Hcons. cbn [countRules]. destruct role as [r|].
    + rewrite IH. rewrite <- Z.add_assoc, int64_add_l.
      rewrite (Z.add_comm rules), <- Z.add_assoc, int64_add_l.
      f_equal. lia.
    + rewrite IH. f_equal.
Qed.

(** The property map [BuildNode] returns, key by key. *)
Lemma built_lookup (labels : gmap string string) (start : Node)
    (ra cs v n : Value) (k : string) :
  Properties
    (copyLabel labels "parent-policy"
       (copyLabel labels "parent-namespace"
          (setProperty
             (setProperty
                (setProperty (setProperty start "remediationAction" ra) "compliant" cs)
                "valid" v)
             "numRules" n))) !! k
  = if decide (k = "parent-policy")
    then match labels !! "parent-policy" with
         | Some x => Some (VString x)
         | None => Properties start !! k
         end
    else if decide (k = "parent-namespace")
    then match labels !! "parent-namespace" with
         | Some x => Some (VString x)
         | None => Properties start !! k
         end
    else if decide (k = "numRules") then Some n
    else if decide (k = "valid") then Some v
    else if decide (k = "compliant") then Some cs
    else if decide (k = "remediationAction") then Some ra
    else Properties start !! k.
Proof.
  rewrite !copyLabel_lookup. unfold setProperty. cbn [Properties].
  rewrite !lookup_insert.
  repeat case_decide; subst; try congruence; try reflexivity.
Qed.

Lemma built_UID (labels : gmap string string) (start : Node) (ra cs v n : Value) :
  UID
    (copyLabel labels "parent-policy"
       (copyLabel labels "parent-namespace"
          (setProperty
             (setProperty
                (setProperty (setProperty start "remediationAction" ra) "compliant" cs)
                "valid" v)
             "numRules" n)))
  = UID start.
Proof. rewrite !copyLabel_UID. reflexivity. Qed.

(** X1: [BuildNode] keeps the UID of the common node and leaves every
    property under a key other than its own six as the common step set
    it. *)
Theorem BuildNode_frame `{E : Extractors} (h : PolicyStore) (a : addr)
    (pol : mcm.Policy) (base : Node) :
  h !! a = Some pol ->
  transformCommon (asObject pol) = Done base ->
  exists node,
    BuildNode (mkPolicyResource (Some a)) h = (Done node, h)
    /\ UID node = UID (apiGroupVersion (mcm.TypeMeta pol) base)
    /\ forall k,
         k ∉ policyKeys ->
         Properties node !! k
         = Properties (apiGroupVersion (mcm.TypeMeta pol) base) !! k.
Proof.
  intros Hpol Hbase.
  eexists. split; [apply (BuildNode_run h a pol base Hpol Hbase)|].
  split; [apply built_UID|].
  intros k Hk. rewrite built_lookup.
  repeat (case_decide;
          [exfalso; apply Hk; subst k; apply list_elem_of_In; cbn; tauto|]).
  reflexivity.
Qed.

Lemma BuildNode_frame_witness :
  exists node,
    BuildNode (E := specExtractors noSpecific) samplePolicyResource sampleStore
    = (Done node, sampleStore)
    /\ UID node = "7c1f0a5e"
    /\ Properties node !! "name" = Some (VString "policy-roles").
Proof.
  destruct (BuildNode_frame (E := specExtractors noSpecific)
              sampleStore 1%positive samplePolicy _ eq_refl eq_refl)
    as (node & Hrun & Huid & Hframe).
  exists node. split; [exact Hrun|]. split; [exact Huid|].
  rewrite Hframe; [reflexivity|].
  intros Hin. apply list_elem_of_In in Hin. cbn in Hin. intuition discriminate.
Defined.

(** X2: the keys of the node are exactly the keys of the common node, the
    four keys [BuildNode] always assigns, and each of the two parent keys
    whose label the policy has. *)
Theorem BuildNode_keys `{E : Extractors} (h : PolicyStore) (a : addr)
    (pol : mcm.Policy) (base : Node) :
  h !! a = Some pol ->
  transformCommon (asObject pol) = Done base ->
  exists node,
    BuildNode (mkPolicyResource (Some a)) h = (Done node, h)
    /\ forall k,
         is_Some (Properties node !! k)
         <-> is_Some (Properties (apiGroupVersion (mcm.TypeMeta pol) base) !! k)
             \/ k ∈ ["remediationAction"; "compliant"; "valid"; "numRules"]
             \/ (k ∈ ["parent-namespace"; "parent-policy"]
                 /\ is_Some (metav1.Labels (mcm.ObjectMeta pol) !! k)).
Proof.
  intros Hpol Hbase.
  eexists. split; [apply (BuildNode_run h a pol base Hpol Hbase)|].
  intros k. rewrite built_lookup.
  set (labels := metav1.Labels (mcm.ObjectMeta pol)).
  set (start := Properties (apiGroupVersion (mcm.TypeMeta pol) base)).
  rewrite !list_elem_of_In. cbn [In].
  repeat case_decide; subst.
  - destruct (labels !! "parent-policy") as [x|] eqn:Hl; split.
    + intros _. right. right. split; [tauto | by eexists].
    + intros _. by eexists.
    + intros Hs. by left.
    + intros [Hs|[Hk|[_ [? Hk]]]]; [exact Hs| |discriminate].
      intuition discriminate.
  - destruct (labels !! "parent-namespace") as [x|] eqn:Hl; split.
    + intros _. right. right. split; [tauto | by eexists].
    + intros _. by eexists.
    + intros Hs. by left.
    + intros [Hs|[Hk|[_ [? Hk]]]]; [exact Hs| |discriminate].
      intuition discriminate.
  - split; [intros _; right; left; tauto | intros _; by eexists].
  - split; [intros _; right; left; tauto | intros _; by eexists].
  - split; [intros _; right; left; tauto | intros _; by eexists].
  - split; [intros _; right; left; tauto | intros _; by eexists].
  - split; [intros Hs; by left|].
    intros [Hs|[Hk|[Hk _]]]; [exact Hs| |]; exfalso; intuition congruence.
Qed.

Lemma BuildNode_keys_witness :
  exists node,
    BuildNode (E := specExtractors noSpecific) samplePolicyResource sampleStore
    = (Done node, sampleStore)
    /\ is_Some (Properties node !! "parent-policy")
    /\ ~ is_Some (Properties node !! "parent-namespace").
Proof.
  destruct (BuildNode_keys (E := specExtractors noSpecific)
              sampleStore 1%positive samplePolicy _ eq_refl eq_refl)
    as (node & Hrun & Hkeys).
  exists node. split; [exact Hrun|]. split.
  - apply Hkeys. right. right. split.
    + apply list_elem_of_In. cbn. tauto.
    + eexists. reflexivity.
  - intros Hs. apply Hkeys in Hs as [Hs|[Hk|[_ Hl]]].
    + destruct Hs as [x Hx]. vm_compute in Hx. discriminate.
    + apply list_elem_of_In in Hk. cbn in Hk. intuition discriminate.
    + destruct Hl as [x Hx]. vm_compute in Hx. discriminate.
Defined.

(** X3: whatever the number of rules, [numRules] is their sum reduced to
    the range of [int64]: it lies between -2^63 and 2^63 - 1 and agrees with
    the sum modulo 2^64. *)
Theorem BuildNode_numRules_wraps `{E : Extractors} (h : PolicyStore) (a : addr)
    (pol : mcm.Policy) (base : Node) :
  h !! a = Some pol ->
  transformCommon (asObject pol) = Done base ->
  exists node z,
    BuildNode (mkPolicyResource (Some a)) h = (Done node, h)
    /\ Properties node !! "numRules" = Some (VInt64 z)
    /\ z = int64 (Z.of_nat (totalRules (mcm.RoleTemplates (mcm.Spec pol))))
    /\ (- 2 ^ 63 <= z < 2 ^ 63)%Z
    /\ (z mod 2 ^ 64
        = Z.of_nat (totalRules (mcm.RoleTemplates (mcm.Spec pol))) mod 2 ^ 64)%Z.
Proof.
  intros Hpol Hbase.
  eexists. eexists. split; [apply (BuildNode_run h a pol base Hpol Hbase)|].
  rewrite built_lookup.
  repeat (rewrite decide_False by discriminate). rewrite decide_True by reflexivity.
  rewrite countRules_wraps. cbn [Z.add].
  split; [reflexivity|]. split; [reflexivity|].
  split; [apply int64_range | apply int64_mod].
Qed.

Lemma BuildNode_numRules_wraps_witness :
  exists node,
    BuildNode (E := specExtractors noSpecific) samplePolicyResource sampleStore
    = (Done node, sampleStore)
    /\ Properties node !! "numRules" = Some (VInt64 (int64 8)).
Proof.
  destruct (BuildNode_numRules_wraps (E := specExtractors noSpecific)
              sampleStore 1%positive samplePolicy _ eq_refl eq_refl)
    as (node & z & Hrun & Hnum & Hz & _).
  exists node. split; [exact Hrun|]. rewrite Hnum, Hz. reflexivity.
Defined.

(** X4: a parent label always wins: when the policy has the label, the
    property is the value of the label even if the common node already had
    a property under that key, and when it has not, the property of the
    common node, if any, stays. *)
Theorem BuildNode_hint_overrides `{E : Extractors} (h : PolicyStore) (a : addr)
    (pol : mcm.Policy) (base : Node) :
  h !! a = Some pol ->
  transformCommon (asObject pol) = Done base ->
  exists node,
    BuildNode (mkPolicyResource (Some a)) h = (Done node, h)
    /\ forall key,
         key ∈ ["parent-namespace"; "parent-policy"] ->
         Properties node !! key
         = match metav1.Labels (mcm.ObjectMeta pol) !! key with
           | Some v => Some (VString v)
           | None => Properties (apiGroupVersion (mcm.TypeMeta pol) base) !! key
           end.
Proof.
  intros Hpol Hbase.
  eexists. split; [apply (BuildNode_run h a pol base Hpol Hbase)|].
  intros key Hkey. rewrite built_lookup.
  apply list_elem_of_In in Hkey. cbn in Hkey.
  destruct Hkey as [<-|[<-|[]]].
  - rewrite decide_False by discriminate. rewrite decide_True by reflexivity.
    reflexivity.
  - rewrite decide_True by reflexivity. reflexivity.
Qed.

Lemma BuildNode_hint_overrides_witness :
  (exists node,
      BuildNode (E := hintingExtractors) samplePolicyResource sampleStore
      = (Done node, sampleStore)
      /\ Properties node !! "parent-policy" = Some (VString "policy-all"))
  /\ exists node,
       BuildNode (E := hintingExtractors) samplePolicyResource unlabelledStore
       = (Done node, unlabelledStore)
       /\ Properties node !! "parent-policy" = Some (VString "from-common").
Proof.
  split.
  - destruct (BuildNode_hint_overrides (E := hintingExtractors)
                sampleStore 1%positive samplePolicy _ eq_refl eq_refl)
      as (node & Hrun & Hkey).
    exists node. split; [exact Hrun|].
    rewrite Hkey; [reflexivity|]. apply list_elem_of_In. cbn. tauto.
  - destruct (BuildNode_hint_overrides (E := hintingExtractors)
                unlabelledStore 1%positive (labelledPolicy ∅) _ eq_refl eq_refl)
      as (node & Hrun & Hkey).
    exists node. split; [exact Hrun|].
    rewrite Hkey; [reflexivity|]. apply list_elem_of_In. cbn. tauto.
Defined.

(** * Further properties of the transformer *)

(** X5: [Start] can be called again, for the same or another transformer:
    the second call leaves the goroutines of the first in place and adds
    its own, so the pool has the workers of both. *)
Theorem Start_twice (t t' : Transformer) (n m : Z) (w : World) :
  (1 <= n)%Z ->
  (1 <= m)%Z ->
  (Start t' m (Start t n w).2).1 = None
  /\ routines (Start t' m (Start t n w).2).2
     = routines w
       ++ repeat (mkRoutine (Input t) (DynamicInput t) (Output t) AtEntry) (Z.to_nat n)
       ++ repeat (mkRoutine (Input t') (DynamicInput t') (Output t') AtEntry)
            (Z.to_nat m)
  /\ liveCount (Start t' m (Start t n w).2).2
     = liveCount w + Z.to_nat n + Z.to_nat m
  /\ glog (Start t' m (Start t n w).2).2
     = glog w ++ [Info "Transformer started"; Info "Transformer started"].
Proof.
  intros Hn Hm.
  split.
  { unfold Start at 1. destruct (Z.ltb_spec m 1); [lia | reflexivity]. }
  rewrite (Start_world t' m) by exact Hm. rewrite (Start_world t n) by exact Hn.
  unfold liveCount. cbn.
  rewrite <- !app_assoc. split; [reflexivity|]. split; [|reflexivity].
  rewrite !sum_list_with_app, !fresh_routines_live. lia.
Qed.

Lemma Start_twice_witness :
  length (routines (Start sampleTransformer 3 (Start sampleTransformer 2 sampleWorld).2).2)
  = 5
  /\ liveCount (Start sampleTransformer 3 (Start sampleTransformer 2 sampleWorld).2).2 = 5.
Proof.
  assert (H2 : (1 <= 2)%Z) by (vm_compute; discriminate).
  assert (H3 : (1 <= 3)%Z) by (vm_compute; discriminate).
  destruct (Start_twice sampleTransformer sampleTransformer 2 3 sampleWorld H2 H3)
    as (_ & Hrs & Hlive & _).
  split; [rewrite Hrs; reflexivity | rewrite Hlive; reflexivity].
Defined.

Section RunFacts.
Context `{E : Extractors}.

Lemma steps_workers (t : Transformer) (k : nat) (w w' : World) :
  steps k w w' ->
  liveCount w' = liveCount w
  /\ (Forall (boundTo t) (routines w) -> Forall (boundTo t) (routines w')).
Proof.
  induction 1 as [w|k w w1 w2 (i & b & Hfire) _ [IHl IHb]]; [by split|].
  apply transformRoutine_routineStep in Hfire as (g & Hg & Hf).
  split.
  - rewrite IHl. by eapply routineStep_liveCount.
  - intros Hall. apply IHb. by eapply routineStep_bound.
Qed.

(** A step changes the channels by one receive or one send at most. *)
Lemma routineStep_channels (i : nat) (g : Routine) (b : Branch) (w w' : World)
    (c : chan) :
  routineStep i g w b w' ->
  chanOf (objChans w') c `suffix_of` chanOf (objChans w) c
  /\ chanOf (dynChans w') c `suffix_of` chanOf (dynChans w) c
  /\ chanOf (nodeChans w) c `prefix_of` chanOf (nodeChans w') c
  /\ glog w `prefix_of` glog w'.
Proof.
  intros Hf.
  destruct Hf as [b Hpc|r rest Hpc Hq|r rest Hpc Hq|b it n Hpc Ht|b it v Hpc Ht
                 |b n sent Hpc Hq|b v Hpc]; cbn;
    repeat split; try reflexivity; try (by apply prefix_app_r).
  - unfold chanOf. rewrite lookup_insert.
    case_decide as Heq; [|reflexivity]. rewrite <- Heq, Hq. cbn.
    by apply suffix_cons_r.
  - unfold chanOf. rewrite lookup_insert.
    case_decide as Heq; [|reflexivity]. rewrite <- Heq, Hq. cbn.
    by apply suffix_cons_r.
  - unfold chanOf. rewrite lookup_insert.
    case_decide as Heq; [|reflexivity]. rewrite <- Heq, Hq. cbn.
    by apply prefix_app_r.
Qed.

(** A step of a goroutine leaves every channel other than its own three as
    it was. *)
Lemma routineStep_other_channels (i : nat) (g : Routine) (b : Branch) (w w' : World)
    (c : chan) :
  routineStep i g w b w' ->
  (c <> input g -> objChans w' !! c = objChans w !! c)
  /\ (c <> dynamicInput g -> dynChans w' !! c = dynChans w !! c)
  /\ (c <> output g -> nodeChans w' !! c = nodeChans w !! c).
Proof.
  intros Hf.
  destruct Hf as [b Hpc|r rest Hpc Hq|r rest Hpc Hq|b it n Hpc Ht|b it v Hpc Ht
                 |b n sent Hpc Hq|b v Hpc]; cbn;
    repeat split; try reflexivity; intros Hne; by rewrite lookup_insert_ne.
Qed.

End RunFacts.

(** X6: once [Start] has started [numRoutines] workers, the pool has
    exactly that many live workers in every world it can reach, panics and
    replacements included, and every one of them is on the three channels
    of the transformer. *)
Theorem pool_size_is_invariant `{E : Extractors} (t : Transformer)
    (numRoutines : Z) (w0 w : World) :
  routines w0 = [] ->
  (1 <= numRoutines)%Z ->
  reachable (Start t numRoutines w0).2 w ->
  liveCount w = Z.to_nat numRoutines
  /\ Forall (boundTo t) (routines w).
Proof.
  intros Hrs Hn [k Hsteps].
  destruct (steps_workers t k _ w Hsteps) as [Hlive Hbound].
  rewrite Start_world in Hlive, Hbound by exact Hn.
  rewrite Hrs in Hlive, Hbound. unfold liveCount in *. cbn in Hlive, Hbound.
  rewrite fresh_routines_live in Hlive.
  split; [exact Hlive|]. apply Hbound, fresh_routines_bound.
Qed.

Lemma pool_size_is_invariant_witness :
  liveCount (runFor (E := faultyExtractors) 18 (Start sampleTransformer 2 sampleWorld).2)
  = 2.
Proof.
  assert (Hn : (1 <= 2)%Z) by (vm_compute; discriminate).
  assert (Hpool : poolOf sampleTransformer (Start sampleTransformer 2 sampleWorld).2).
  { split; [repeat constructor | eexists; reflexivity]. }
  destruct (runFor_quiescent (E := faultyExtractors) sampleTransformer 18
              (Start sampleTransformer 2 sampleWorld).2 Hpool)
    as (k & Hsteps & _); [vm_compute; lia|].
  destruct (pool_size_is_invariant (E := faultyExtractors) sampleTransformer 2
              sampleWorld _ eq_refl Hn (ex_intro _ k Hsteps)) as [Hlive _].
  exact Hlive.
Defined.

(** X7: along every run, a channel of resources only loses elements at its
    head, a channel of nodes only gains elements at its tail, and the log
    only grows: no resource is put back, no node is taken back or
    reordered. *)
Theorem channels_are_monotone `{E : Extractors} (w w' : World) (c : chan) :
  reachable w w' ->
  chanOf (objChans w') c `suffix_of` chanOf (objChans w) c
  /\ chanOf (dynChans w') c `suffix_of` chanOf (dynChans w) c
  /\ chanOf (nodeChans w) c `prefix_of` chanOf (nodeChans w') c
  /\ glog w `prefix_of` glog w'.
Proof.
  intros [k Hsteps].
  induction Hsteps as [w|k w w1 w2 (i & b & Hfire) _ (IH1 & IH2 & IH3 & IH4)];
    [repeat split; reflexivity|].
  apply transformRoutine_routineStep in Hfire as (g & _ & Hf).
  destruct (routineStep_channels _ _ _ _ _ c Hf) as (H1 & H2 & H3 & H4).
  repeat split; etrans; eassumption.
Qed.

Lemma channels_are_monotone_witness :
  [] `suffix_of` chanOf (objChans (Start sampleTransformer 2 sampleWorld).2) 1%positive
  /\ [] `prefix_of`
       chanOf (nodeChans (runFor (E := specExtractors noSpecific) 18
                            (Start sampleTransformer 2 sampleWorld).2)) 3%positive.
Proof.
  assert (Hpool : poolOf sampleTransformer (Start sampleTransformer 2 sampleWorld).2).
  { split; [repeat constructor | eexists; reflexivity]. }
  destruct (runFor_quiescent (E := specExtractors noSpecific) sampleTransformer 18
              (Start sampleTransformer 2 sampleWorld).2 Hpool)
    as (k & Hsteps & _); [vm_compute; lia|].
  destruct (channels_are_monotone (E := specExtractors noSpecific) _ _ 3%positive
              (ex_intro _ k Hsteps)) as (_ & _ & Hout & _).
  destruct (channels_are_monotone (E := specExtractors noSpecific) _ _ 1%positive
              (ex_intro _ k Hsteps)) as (Hin & _).
  split; [|exact Hout].
  etrans; [|exact Hin]. apply suffix_nil.
Defined.

(** X8: a pool whose goroutines are all on the channels of [t] never
    touches any other channel: whatever it does, every channel that is not
    one of the three of [t] keeps its contents. *)
Theorem other_channels_untouched `{E : Extractors} (t : Transformer) (w w' : World)
    (c : chan) :
  Forall (boundTo t) (routines w) ->
  reachable w w' ->
  (c <> Input t -> objChans w' !! c = objChans w !! c)
  /\ (c <> DynamicInput t -> dynChans w' !! c = dynChans w !! c)
  /\ (c <> Output t -> nodeChans w' !! c = nodeChans w !! c).
Proof.
  intros Hall [k Hsteps].
  induction Hsteps as [w|k w w1 w2 (i & b & Hfire) _ IH]; [by repeat split|].
  apply transformRoutine_routineStep in Hfire as (g & Hg & Hf).
  destruct (Forall_lookup_1 _ _ _ _ Hall Hg) as (Hin & Hdyn & Hout).
  destruct (routineStep_other_channels _ _ _ _ _ c Hf) as (H1 & H2 & H3).
  destruct IH as (I1 & I2 & I3); [by eapply routineStep_bound|].
  rewrite Hin in H1. rewrite Hdyn in H2. rewrite Hout in H3.
  repeat split; intros Hne.
  - by rewrite I1, H1.
  - by rewrite I2, H2.
  - by rewrite I3, H3.
Qed.

Lemma other_channels_untouched_witness :
  objChans (runFor (E := faultyExtractors) 18 (Start sampleTransformer 2 sharedWorld).2)
    !! 7%positive
  = Some [sampleDeployment; samplePod].
Proof.
  assert (Hpool : poolOf sampleTransformer (Start sampleTransformer 2 sharedWorld).2).
  { split; [repeat constructor | eexists; reflexivity]. }
  destruct (runFor_quiescent (E := faultyExtractors) sampleTransformer 18
              (Start sampleTransformer 2 sharedWorld).2 Hpool)
    as (k & Hsteps & _); [vm_compute; lia|].
  destruct (other_channels_untouched (E := faultyExtractors) sampleTransformer _ _
              7%positive (proj1 Hpool) (ex_intro _ k Hsteps)) as (Hobj & _).
  etrans; [apply Hobj; discriminate | reflexivity].
Defined.

(** *** Faults *)

Section FaultFacts.
Context `{E : Extractors} (t : Transformer).

Lemma errorsOf_app (log1 log2 : list LogLine) :
  errorsOf (log1 ++ log2) = errorsOf log1 ++ errorsOf log2.
Proof. apply filter_app. Qed.

(** No step changes the error lines logged or still to be logged. *)
Lemma routineStep_faultLedger (i : nat) (g : Routine) (b : Branch) (w w' : World) :
  Forall (boundTo t) (routines w) ->
  routines w !! i = Some g ->
  routineStep i g w b w' ->
  faultLedger t w' ≡ₚ faultLedger t w.
Proof.
  intros Hall Hg Hf.
  destruct (Forall_lookup_1 _ _ _ _ Hall Hg) as (Hin & Hdyn & Hout).
  unfold faultLedger, queuedFaults.
  pose proof (fun g' => bind_insert_perm (fun g => faultInFlight (pc g))
                          (routines w) i g g' Hg) as Hperm.
  destruct Hf as [b Hpc|r rest Hpc Hq|r rest Hpc Hq|b it n Hpc Ht|b it v Hpc Ht
                 |b n sent Hpc Hq|b v Hpc]; cbn;
    match goal with
    | |- context [<[i := ?g']> (routines w)] => specialize (Hperm g')
    end; cbn in Hperm; rewrite Hpc in Hperm; cbn in Hperm.
  - rewrite errorsOf_app, Hperm. cbn. by rewrite app_nil_r.
  - rewrite Hin in *. rewrite chanOf_insert_eq, (chanOf_Some _ _ _ Hq).
    rewrite Hperm. cbn.
    destruct (transformTyped r) as [n|v]; cbn; [reflexivity|].
    apply Permutation_app_head. rewrite !fmap_app. cbn.
    apply Permutation_middle.
  - rewrite Hdyn in *. rewrite chanOf_insert_eq, (chanOf_Some _ _ _ Hq).
    rewrite Hperm. cbn.
    destruct (transformUnstructured r) as [n|v]; cbn; [reflexivity|].
    apply Permutation_app_head. rewrite !fmap_app. cbn.
    rewrite !app_assoc. rewrite <- Permutation_middle. reflexivity.
  - rewrite Ht in Hperm. cbn in Hperm. rewrite Hperm. reflexivity.
  - rewrite Ht in Hperm. apply (Permutation_app_inv_l [v]) in Hperm.
    rewrite Hperm. reflexivity.
  - rewrite Hperm. reflexivity.
  - rewrite errorsOf_app, bind_app. cbn. rewrite app_nil_r.
    rewrite <- Hperm. cbn. rewrite <- !app_assoc. cbn.
    apply Permutation_app_head. reflexivity.
Qed.

Lemma steps_faultLedger (k : nat) (w w' : World) :
  poolOf t w -> steps k w w' -> faultLedger t w' ≡ₚ faultLedger t w.
Proof.
  intros Hpool Hsteps. induction Hsteps as [w|k w w1 w2 Hstep _ IH]; [reflexivity|].
  rewrite IH by (by eapply step_poolOf).
  destruct Hstep as (i & b & Hfire).
  apply transformRoutine_routineStep in Hfire as (g & Hg & Hf).
  eapply routineStep_faultLedger; [apply Hpool | eassumption..].
Qed.

Lemma panicsOf_items (ins : list Object) (dyns : list Unstructured) :
  omap (fun r => panicOf (transform (Typed r))) ins
  ++ omap (fun u => panicOf (transform (Dynamic u))) dyns
  = panicsOf ((Typed <$> ins) ++ (Dynamic <$> dyns)).
Proof.
  unfold panicsOf. rewrite omap_app. f_equal.
  - induction ins as [|r ins IH]; [reflexivity|].
    cbn in *. destruct (panicOf (transformTyped r)); [f_equal|]; exact IH.
  - induction dyns as [|u dyns IH]; [reflexivity|].
    cbn in *. destruct (panicOf (transformUnstructured u)); [f_equal|]; exact IH.
Qed.

(** Every resource either has a node or a panic. *)
Lemma nodes_and_panics (resources : list Item) :
  length (nodesOf resources) + length (panicsOf resources) = length resources.
Proof.
  unfold nodesOf, panicsOf. induction resources as [|it l IH]; [reflexivity|].
  csimpl. destruct (transform it); cbn; lia.
Qed.

Lemma fresh_routines_faultInFlight (i d o : chan) (k : nat) :
  repeat (mkRoutine i d o AtEntry) k ≫= (fun g => faultInFlight (pc g)) = [].
Proof. induction k as [|k IH]; [reflexivity|]. csimpl. exact IH. Qed.

Lemma started_faultLedger (numRoutines : Z) (w0 : World)
    (ins : list Object) (dyns : list Unstructured) :
  routines w0 = [] ->
  objChans w0 !! Input t = Some ins ->
  dynChans w0 !! DynamicInput t = Some dyns ->
  (1 <= numRoutines)%Z ->
  faultLedger t (Start t numRoutines w0).2
  = errorsOf (glog w0)
    ++ (errorLine <$> panicsOf ((Typed <$> ins) ++ (Dynamic <$> dyns))).
Proof.
  intros Hrs Hin Hdyn Hn.
  rewrite Start_world by exact Hn. rewrite Hrs. cbn [app].
  unfold faultLedger, queuedFaults. cbn.
  rewrite (chanOf_Some _ _ _ Hin), (chanOf_Some _ _ _ Hdyn).
  rewrite fresh_routines_faultInFlight, errorsOf_app. cbn.
  rewrite app_nil_r. by rewrite panicsOf_items.
Qed.

Lemma quiescent_faultLedger (w : World) :
  poolOf t w ->
  1 <= liveCount w ->
  pick w = None ->
  faultLedger t w = errorsOf (glog w).
Proof.
  intros Hpool Hlive Hnone.
  destruct (quiescent_ledger t w Hpool Hlive Hnone) as (Hobj & Hdy & Hpcs & _).
  unfold faultLedger, queuedFaults. rewrite Hobj, Hdy. cbn.
  rewrite bind_nil; [by rewrite !app_nil_r|].
  eapply Forall_impl; [exact Hpcs|]. intros g' [-> | ->]; reflexivity.
Qed.

End FaultFacts.

(** X9: the pool always comes to rest, panics or not: a replacement is
    only started for a resource that is gone, so a run from [Start] on N
    queued resources has at most 4 N + [numRoutines] steps, and a world
    where nothing can move is reachable. *)
Theorem pool_comes_to_rest `{E : Extractors} (t : Transformer) (numRoutines : Z)
    (w0 : World) (ins : list Object) (dyns : list Unstructured) :
  routines w0 = [] ->
  objChans w0 !! Input t = Some ins ->
  dynChans w0 !! DynamicInput t = Some dyns ->
  nodeChans w0 !! Output t = Some [] ->
  (1 <= numRoutines)%Z ->
  (forall k w,
      steps k (Start t numRoutines w0).2 w ->
      k <= 4 * (length ins + length dyns) + Z.to_nat numRoutines)
  /\ exists k w, steps k (Start t numRoutines w0).2 w /\ forall w', ~ step w w'.
Proof.
  intros Hrs Hin Hdyn Hout Hn.
  destruct (started_facts t numRoutines w0 ins dyns Hrs Hin Hdyn Hout Hn)
    as (Hpool & _ & Hmeasure & _).
  split.
  - intros k w Hsteps.
    destruct (steps_invariants t k _ w Hpool Hsteps) as (_ & Hm & _). lia.
  - destruct (runFor_quiescent t (measure t (Start t numRoutines w0).2) _ Hpool)
      as (k & Hk & Hq); [lia|].
    eexists. eexists. split; [exact Hk | by apply pick_None].
Qed.

Lemma pool_comes_to_rest_witness :
  (forall k w,
      steps (E := faultyExtractors) k (Start sampleTransformer 2 sampleWorld).2 w ->
      k <= 18)
  /\ exists k w,
       steps (E := faultyExtractors) k (Start sampleTransformer 2 sampleWorld).2 w
       /\ forall w', ~ step (E := faultyExtractors) w w'.
Proof.
  assert (Hn : (1 <= 2)%Z) by (vm_compute; discriminate).
  destruct (pool_comes_to_rest (E := faultyExtractors) sampleTransformer 2 sampleWorld
              [samplePod; sampleDeployment; sampleEndpoints] [sampleUnstructured]
              eq_refl eq_refl eq_refl eq_refl Hn) as [Hbound Hrest].
  split; [exact Hbound | exact Hrest].
Defined.

(** X10: when some transformations panic, the pool at rest has emptied
    both intake channels and the output holds, each once, the nodes of
    exactly the resources whose transformation returned: the number of
    nodes and the number of panics add up to the number of resources. *)
Theorem pool_delivers_what_does_not_panic `{E : Extractors} (t : Transformer)
    (numRoutines : Z) (w0 w : World) (ins : list Object) (dyns : list Unstructured) :
  routines w0 = [] ->
  objChans w0 !! Input t = Some ins ->
  dynChans w0 !! DynamicInput t = Some dyns ->
  nodeChans w0 !! Output t = Some [] ->
  (1 <= numRoutines)%Z ->
  reachable (Start t numRoutines w0).2 w ->
  (forall w', ~ step w w') ->
  chanOf (objChans w) (Input t) = []
  /\ chanOf (dynChans w) (DynamicInput t) = []
  /\ exists out,
       nodeChans w !! Output t = Some out
       /\ out ≡ₚ nodesOf ((Typed <$> ins) ++ (Dynamic <$> dyns))
       /\ length out + length (panicsOf ((Typed <$> ins) ++ (Dynamic <$> dyns)))
          = length ins + length dyns.
Proof.
  intros Hrs Hin Hdyn Hout Hn [k Hsteps] Hstuck.
  destruct (started_facts t numRoutines w0 ins dyns Hrs Hin Hdyn Hout Hn)
    as (Hpool & Hlive & _ & Hledger).
  destruct (steps_invariants t k _ w Hpool Hsteps) as (Hp & _ & Hl & Hc).
  apply pick_None in Hstuck.
  destruct (quiescent_ledger t w Hp) as (Hobj & Hdy & _ & Hall); [lia | exact Hstuck |].
  split; [exact Hobj|]. split; [exact Hdy|].
  destruct Hp as [_ [out Hopen]]. exists out.
  rewrite (chanOf_Some _ _ _ Hopen) in Hall.
  assert (Hperm : out ≡ₚ nodesOf ((Typed <$> ins) ++ (Dynamic <$> dyns)))
    by (by rewrite <- Hall, Hl, Hledger).
  split; [exact Hopen|]. split; [exact Hperm|].
  rewrite Hperm, nodes_and_panics. by rewrite length_app, !length_fmap.
Qed.

Lemma pool_delivers_what_does_not_panic_witness :
  exists out,
    nodeChans (runFor (E := faultyExtractors) 18 (Start sampleTransformer 2 sampleWorld).2)
      !! 3%positive = Some out
    /\ length out + 1 = 4.
Proof.
  assert (Hn : (1 <= 2)%Z) by (vm_compute; discriminate).
  assert (Hpool : poolOf sampleTransformer (Start sampleTransformer 2 sampleWorld).2).
  { split; [repeat constructor | eexists; reflexivity]. }
  destruct (runFor_quiescent (E := faultyExtractors) sampleTransformer 18
              (Start sampleTransformer 2 sampleWorld).2 Hpool)
    as (k & Hsteps & Hrest); [vm_compute; lia|].
  destruct (pool_delivers_what_does_not_panic (E := faultyExtractors)
              sampleTransformer 2 sampleWorld _
              [samplePod; sampleDeployment; sampleEndpoints] [sampleUnstructured]
              eq_refl eq_refl eq_refl eq_refl Hn (ex_intro _ k Hsteps)
              (proj1 (pick_None _) Hrest))
    as (_ & _ & out & Hout & _ & Hcount).
  exists out. split; [exact Hout | exact Hcount].
Defined.

(** X11: every panic is logged exactly once, with its value, and nothing
    else is logged as an error: at any time the error lines of the log are
    among the lines already there and the lines of the resources whose
    transformation panics, and once the pool is at rest they are exactly
    these. *)
Theorem every_panic_is_logged_once `{E : Extractors} (t : Transformer)
    (numRoutines : Z) (w0 w : World) (ins : list Object) (dyns : list Unstructured) :
  routines w0 = [] ->
  objChans w0 !! Input t = Some ins ->
  dynChans w0 !! DynamicInput t = Some dyns ->
  nodeChans w0 !! Output t = Some [] ->
  (1 <= numRoutines)%Z ->
  reachable (Start t numRoutines w0).2 w ->
  errorsOf (glog w)
    ⊆+ errorsOf (glog w0)
       ++ (errorLine <$> panicsOf ((Typed <$> ins) ++ (Dynamic <$> dyns)))
  /\ ((forall w', ~ step w w') ->
      errorsOf (glog w)
      ≡ₚ errorsOf (glog w0)
         ++ (errorLine <$> panicsOf ((Typed <$> ins) ++ (Dynamic <$> dyns)))).
Proof.
  intros Hrs Hin Hdyn Hout Hn [k Hsteps].
  destruct (started_facts t numRoutines w0 ins dyns Hrs Hin Hdyn Hout Hn)
    as (Hpool & Hlive & _ & _).
  pose proof (started_faultLedger t numRoutines w0 ins dyns Hrs Hin Hdyn Hn) as Hstart.
  pose proof (steps_faultLedger t k _ w Hpool Hsteps) as Hl.
  destruct (steps_invariants t k _ w Hpool Hsteps) as (Hp & _ & _ & Hc).
  split.
  - rewrite <- Hstart, <- Hl. unfold faultLedger.
    apply submseteq_inserts_r. reflexivity.
  - intros Hstuck. apply pick_None in Hstuck.
    rewrite <- Hstart, <- Hl. rewrite quiescent_faultLedger; [reflexivity| | |].
    + exact Hp.
    + lia.
    + exact Hstuck.
Qed.

Lemma every_panic_is_logged_once_witness :
  errorsOf (glog (runFor (E := faultyExtractors) 18
                    (Start sampleTransformer 2 sampleWorld).2))
  ≡ₚ [errorLine "index out of range"].
Proof.
  assert (Hn : (1 <= 2)%Z) by (vm_compute; discriminate).
  assert (Hpool : poolOf sampleTransformer (Start sampleTransformer 2 sampleWorld).2).
  { split; [repeat constructor | eexists; reflexivity]. }
  destruct (runFor_quiescent (E := faultyExtractors) sampleTransformer 18
              (Start sampleTransformer 2 sampleWorld).2 Hpool)
    as (k & Hsteps & Hrest); [vm_compute; lia|].
  destruct (every_panic_is_logged_once (E := faultyExtractors)
              sampleTransformer 2 sampleWorld _
              [samplePod; sampleDeployment; sampleEndpoints] [sampleUnstructured]
              eq_refl eq_refl eq_refl eq_refl Hn (ex_intro _ k Hsteps))
    as [_ Hrestlog].
  exact (Hrestlog (proj1 (pick_None _) Hrest)).
Defined.

(** *** A single worker *)

Section SingleWorker.
Context `{E : Extractors} (t : Transformer).

Lemma exited_inFlight (l : list Routine) :
  sum_list_with (fun g => if isLive (pc g) then 1 else 0) l = 0 ->
  l ≫= (fun g => inFlight (pc g)) = [].
Proof.
  induction l as [|g l IH]; [reflexivity|]. intros Hsum. cbn in Hsum. csimpl.
  destruct (pc g) eqn:Hpc; cbn in *; try lia. by apply IH.
Qed.

(** With one live goroutine, what the pool carries is what that goroutine
    carries. *)
Lemma single_live_inFlight (l : list Routine) (i : nat) (g : Routine) :
  sum_list_with (fun g => if isLive (pc g) then 1 else 0) l = 1 ->
  l !! i = Some g ->
  isLive (pc g) = true ->
  l ≫= (fun g => inFlight (pc g)) = inFlight (pc g)
  /\ forall g', <[i := g']> l ≫= (fun g => inFlight (pc g)) = inFlight (pc g').
Proof.
  intros Hsum Hi Hlive.
  assert (Hlt : i < length l) by (by eapply lookup_lt_Some).
  pose proof (take_drop_middle l i g Hi) as Hsplit.
  rewrite <- Hsplit in Hsum. rewrite sum_list_with_app in Hsum. cbn in Hsum.
  rewrite Hlive in Hsum.
  assert (Htake : take i l ≫= (fun g => inFlight (pc g)) = [])
    by (apply exited_inFlight; lia).
  assert (Hdrop : drop (S i) l ≫= (fun g => inFlight (pc g)) = [])
    by (apply exited_inFlight; lia).
  split.
  - rewrite <- Hsplit at 1. rewrite bind_app, bind_cons, Htake, Hdrop.
    by rewrite app_nil_r.
  - intros g'. rewrite insert_take_drop by exact Hlt.
    rewrite bind_app, bind_cons, Htake, Hdrop. by rewrite app_nil_r.
Qed.

(** With one live goroutine and nothing on the dynamic channel, a step
    keeps the nodes sent and to be sent in the same order. *)
Lemma routineStep_ledger_ordered (i : nat) (g : Routine) (b : Branch) (w w' : World) :
  Forall (boundTo t) (routines w) ->
  liveCount w = 1 ->
  chanOf (dynChans w) (DynamicInput t) = [] ->
  routines w !! i = Some g ->
  routineStep i g w b w' ->
  ledger t w' = ledger t w
  /\ chanOf (dynChans w') (DynamicInput t) = [].
Proof.
  intros Hall Hone Hnodyn Hg Hf.
  destruct (Forall_lookup_1 _ _ _ _ Hall Hg) as (Hin & Hdyn & Hout).
  assert (Hlive : isLive (pc g) = true) by (destruct Hf; by rewrite H).
  destruct (single_live_inFlight (routines w) i g Hone Hg Hlive) as [Hnow Hthen].
  unfold ledger, queued. rewrite Hnow.
  destruct Hf as [b Hpc|r rest Hpc Hq|r rest Hpc Hq|b it n Hpc Ht|b it v Hpc Ht
                 |b n sent Hpc Hq|b v Hpc]; cbn; rewrite ?Hthen, ?Hpc; cbn.
  - by split.
  - rewrite Hin in *. rewrite chanOf_insert_eq, (chanOf_Some _ _ _ Hq). cbn.
    split; [|exact Hnodyn].
    destruct (transformTyped r); reflexivity.
  - exfalso. rewrite Hdyn in Hq. unfold chanOf in Hnodyn. rewrite Hq in Hnodyn.
    discriminate.
  - rewrite Ht. by split.
  - rewrite Ht. by split.
  - rewrite Hout in *. rewrite chanOf_insert_eq, (chanOf_Some _ _ _ Hq).
    split; [|exact Hnodyn]. by rewrite <- !app_assoc.
  - rewrite bind_app, Hthen. cbn. by split.
Qed.

Lemma steps_ledger_ordered (k : nat) (w w' : World) :
  Forall (boundTo t) (routines w) ->
  liveCount w = 1 ->
  chanOf (dynChans w) (DynamicInput t) = [] ->
  steps k w w' ->
  ledger t w' = ledger t w.
Proof.
  intros Hall Hone Hnodyn Hsteps.
  induction Hsteps as [w|k w w1 w2 (i & b & Hfire) _ IH]; [reflexivity|].
  apply transformRoutine_routineStep in Hfire as (g & Hg & Hf).
  destruct (routineStep_ledger_ordered i g b w w1 Hall Hone Hnodyn Hg Hf) as [Hl Hd].
  rewrite IH.
  - exact Hl.
  - by eapply routineStep_bound.
  - by rewrite (routineStep_liveCount _ _ _ _ _ Hg Hf).
  - exact Hd.
Qed.

End SingleWorker.

(** X13: one worker keeps the order of its input.  Started alone on a
    channel of typed resources, with nothing on the dynamic channel, it
    sends the nodes in the order the resources were queued, skipping those
    whose transformation panics: the output is always a prefix of that
    list, and the whole list once the pool is at rest. *)
Theorem single_worker_keeps_order `{E : Extractors} (t : Transformer)
    (w0 w : World) (ins : list Object) :
  routines w0 = [] ->
  objChans w0 !! Input t = Some ins ->
  chanOf (dynChans w0) (DynamicInput t) = [] ->
  nodeChans w0 !! Output t = Some [] ->
  reachable (Start t 1 w0).2 w ->
  chanOf (nodeChans w) (Output t) `prefix_of` nodesOf (Typed <$> ins)
  /\ ((forall w', ~ step w w') ->
      nodeChans w !! Output t = Some (nodesOf (Typed <$> ins))).
Proof.
  intros Hrs Hin Hnodyn Hout [k Hsteps].
  assert (Hn : (1 <= 1)%Z) by lia.
  assert (Hw1 : (Start t 1 w0).2
                = setRoutines [mkRoutine (Input t) (DynamicInput t) (Output t) AtEntry]
                    (writeLog (Info "Transformer started") w0)).
  { rewrite Start_world by exact Hn. by rewrite Hrs. }
  assert (Hpool : poolOf t (Start t 1 w0).2).
  { rewrite Hw1. split; [by repeat constructor | cbn; by rewrite Hout]. }
  assert (Hone : liveCount (Start t 1 w0).2 = 1) by (by rewrite Hw1).
  assert (Hledger : ledger t (Start t 1 w0).2 = nodesOf (Typed <$> ins)).
  { rewrite Hw1. unfold ledger, queued. cbn.
    rewrite (chanOf_Some _ _ _ Hin), (chanOf_Some _ _ _ Hout), Hnodyn. cbn.
    pose proof (nodesOf_items ins []) as Hitems. cbn in Hitems.
    rewrite !app_nil_r in *. exact Hitems. }
  assert (Hsame : ledger t w = nodesOf (Typed <$> ins)).
  { rewrite <- Hledger.
    apply (steps_ledger_ordered t k); [apply Hpool | exact Hone | | exact Hsteps].
    by rewrite Hw1. }
  destruct (steps_invariants t k _ w Hpool Hsteps) as (Hp & _ & _ & Hc).
  split.
  - rewrite <- Hsame. unfold ledger. by apply prefix_app_r.
  - intros Hstuck. apply pick_None in Hstuck.
    destruct (quiescent_ledger t w Hp) as (_ & _ & _ & Hall); [lia | exact Hstuck |].
    destruct Hp as [_ [out Hopen]].
    rewrite (chanOf_Some _ _ _ Hopen) in Hall. by rewrite Hopen, <- Hall, Hsame.
Qed.

Lemma single_worker_keeps_order_witness :
  nodeChans (runFor (E := faultyExtractors) 18 (Start sampleTransformer 1 typedWorld).2)
    !! 3%positive
  = Some [ Spec.common (typeMeta samplePod) (objectMeta samplePod);
           Spec.common (typeMeta sampleEndpoints) (objectMeta sampleEndpoints) ].
Proof.
  assert (Hpool : poolOf sampleTransformer (Start sampleTransformer 1 typedWorld).2).
  { split; [repeat constructor | eexists; reflexivity]. }
  destruct (runFor_quiescent (E := faultyExtractors) sampleTransformer 18
              (Start sampleTransformer 1 typedWorld).2 Hpool)
    as (k & Hsteps & Hrest); [vm_compute; lia|].
  destruct (single_worker_keeps_order (E := faultyExtractors) sampleTransformer
              typedWorld _ [samplePod; sampleDeployment; sampleEndpoints]
              eq_refl eq_refl eq_refl eq_refl (ex_intro _ k Hsteps))
    as [_ Hatrest].
  exact (Hatrest (proj1 (pick_None _) Hrest)).
Defined.
